(** * Address book of [hw_8_1.py]: field types, contact records, the book
      and its birthday query, embedded as Rocq functions.

    Conventions of the embedding.
    - A Python [str] is a [string]: the sequence of its code points, each
      an [ascii], so the model covers the code points U+0000..U+00FF
      (Basic Latin and Latin-1 Supplement).
    - A Python [int] is a [Z].
    - A method that mutates [self] is a computation of the monad [M S],
      a state transformer that keeps the state reached when an exception
      is raised, as Python keeps the mutations made before a [raise].
    - A pure call that may raise returns [exn + A].
    - [datetime.now().date()] is the argument [today]. *)

From Stdlib Require Import ZArith List String Ascii Bool Lia.
Import ListNotations.

Local Open Scope string_scope.
Local Open Scope list_scope.

(** ** Exceptions *)

(** A [ValueError] raised by the interpreter or by [datetime]; the wording
    of these messages is not part of the model. *)
Inductive interp_error :=
| TimeDataMismatch      (* strptime: the data does not match the format *)
| UnconvertedData       (* strptime: unconverted data remains *)
| InvalidLiteral        (* int(): not a number *)
| YearOutOfRange        (* date: year outside MINYEAR..MAXYEAR *)
| MonthOutOfRange       (* date: month must be in 1..12 *)
| DayOutOfRange         (* date: day is out of range for month *)
| UnpackArity           (* wrong number of values to unpack *)
| NotInList.            (* list.index(x): x not in list *)

Inductive value_error :=
| Message (text : string)           (* raise ValueError("text") of this program *)
| Interpreter (what : interp_error).

Inductive exn :=
| ValueError (e : value_error)
| KeyError (key : string)
| IndexError.

(** ** Computations on a mutable object of type [S] *)

Definition M (S A : Type) : Type := S -> (exn + A) * S.

Definition ret {S A} (a : A) : M S A := fun s => (inr a, s).

Definition raise {S A} (e : exn) : M S A := fun s => (inl e, s).

Definition bind {S A B} (m : M S A) (k : A -> M S B) : M S B :=
  fun s =>
    match m s with
    | (inl e, s') => (inl e, s')
    | (inr a, s') => k a s'
    end.

Definition get {S} : M S S := fun s => (inr s, s).

Definition put {S} (s : S) : M S unit := fun _ => (inr tt, s).

(** The value or exception of a pure call, inside a computation. *)
Definition lift {S A} (r : exn + A) : M S A :=
  match r with
  | inl e => raise e
  | inr a => ret a
  end.

Definition outcome {S A} (r : (exn + A) * S) : exn + A := fst r.
Definition final {S A} (r : (exn + A) * S) : S := snd r.

Declare Scope py_scope.
Delimit Scope py_scope with py.
Notation "x <- m ;; k" := (bind m (fun x => k))
  (at level 61, m at next level, right associativity) : py_scope.
Notation "m ;; k" := (bind m (fun _ => k))
  (at level 61, right associativity) : py_scope.

(** Sequencing of pure calls that may raise. *)
Definition ebind {A B} (r : exn + A) (k : A -> exn + B) : exn + B :=
  match r with
  | inl e => inl e
  | inr a => k a
  end.

Notation "x <~ r ;; k" := (ebind r (fun x => k))
  (at level 61, r at next level, right associativity) : py_scope.

Local Open Scope py_scope.

(** ** Strings *)

Definition code (c : ascii) : N := N_of_ascii c.

(** [\d] of [re] on a [str] pattern, and [str.isdecimal]: the characters of
    category Nd. Below U+0100 these are '0'..'9'. *)
Definition char_isdecimal (c : ascii) : bool :=
  ((48 <=? code c) && (code c <=? 57))%N.

(** One character of [str.isdigit]: Numeric_Type Decimal or Digit. Below
    U+0100 these are '0'..'9' and the superscripts U+00B2, U+00B3, U+00B9. *)
Definition char_isdigit (c : ascii) : bool :=
  char_isdecimal c
  || (code c =? 178)%N || (code c =? 179)%N || (code c =? 185)%N.

Fixpoint str_all (p : ascii -> bool) (s : string) : bool :=
  match s with
  | EmptyString => true
  | String c r => p c && str_all p r
  end.

(** [str.isdigit()]: every character is a digit and there is at least one. *)
Definition isdigit (s : string) : bool :=
  match s with
  | EmptyString => false
  | _ => str_all char_isdigit s
  end.

Definition len (s : string) : Z := Z.of_nat (String.length s).

(** ** Field types *)

Record Field := mkField { value : string }.

Definition Field__init__ (v : string) : Field := mkField v.

Definition Field__str__ (self : Field) : string := value self.

Definition Name (v : string) : Field := Field__init__ v.

Definition Phone (v : string) : exn + Field :=
  if negb (isdigit v) || negb (len v =? 10)%Z
  then inl (ValueError (Message "Phone number must contain 10 digits."))
  else inr (Field__init__ v).

(** ** Calendar dates ([datetime.date]) *)

Local Open Scope Z_scope.

Record date := mkdate { year : Z; month : Z; day : Z }.

Definition MINYEAR : Z := 1.
Definition MAXYEAR : Z := 9999.

Definition is_leap (y : Z) : bool :=
  (y mod 4 =? 0) && (negb (y mod 100 =? 0) || (y mod 400 =? 0)).

Definition DAYS_IN_MONTH (m : Z) : Z :=
  match m with
  | 1 => 31 | 2 => 28 | 3 => 31 | 4 => 30 | 5 => 31 | 6 => 30
  | 7 => 31 | 8 => 31 | 9 => 30 | 10 => 31 | 11 => 30 | 12 => 31
  | _ => -1
  end.

Definition DAYS_BEFORE_MONTH (m : Z) : Z :=
  match m with
  | 1 => 0 | 2 => 31 | 3 => 59 | 4 => 90 | 5 => 120 | 6 => 151
  | 7 => 181 | 8 => 212 | 9 => 243 | 10 => 273 | 11 => 304 | 12 => 334
  | _ => -1
  end.

Definition days_in_month (y m : Z) : Z :=
  if (m =? 2) && is_leap y then 29 else DAYS_IN_MONTH m.

Definition days_before_year (y : Z) : Z :=
  let y := y - 1 in
  y * 365 + y / 4 - y / 100 + y / 400.

Definition days_before_month (y m : Z) : Z :=
  DAYS_BEFORE_MONTH m + (if (2 <? m) && is_leap y then 1 else 0).

Definition ymd_to_ord (y m d : Z) : Z :=
  days_before_year y + days_before_month y m + d.

(** [date(year, month, day)]: the range checks of the constructor. *)
Definition date_new (y m d : Z) : exn + date :=
  if negb ((MINYEAR <=? y) && (y <=? MAXYEAR))
  then inl (ValueError (Interpreter YearOutOfRange))
  else if negb ((1 <=? m) && (m <=? 12))
  then inl (ValueError (Interpreter MonthOutOfRange))
  else if negb ((1 <=? d) && (d <=? days_in_month y m))
  then inl (ValueError (Interpreter DayOutOfRange))
  else inr (mkdate y m d).

(** [self.replace(year=y)] builds a new date from the changed fields. *)
Definition date_replace_year (self : date) (y : Z) : exn + date :=
  date_new y (month self) (day self).

(** [a < b] on dates compares (year, month, day). *)
Definition date_lt (a b : date) : bool :=
  (year a <? year b)
  || ((year a =? year b)
      && ((month a <? month b)
          || ((month a =? month b) && (day a <? day b)))).

Definition toordinal (self : date) : Z :=
  ymd_to_ord (year self) (month self) (day self).

(** [a - b] on dates: a [timedelta] of whole days, modelled by its
    number of days; [timedelta(days=n)] is [n]. *)
Definition date_sub (a b : date) : Z := toordinal a - toordinal b.

Definition timedelta (days : Z) : Z := days.

Definition digit_char (n : Z) : ascii := ascii_of_N (48 + Z.to_N n).

Definition two_digits (n : Z) : string :=
  String (digit_char (n / 10)) (String (digit_char (n mod 10)) "").

Definition four_digits (n : Z) : string :=
  String (digit_char (n / 1000)) (String (digit_char (n / 100 mod 10))
    (two_digits (n mod 100))).

(** [self.strftime("%d.%m.%Y")]; the year is written with four digits,
    as the C library does for the years from 1000 on. *)
Definition strftime_dmY (self : date) : string :=
  two_digits (day self) ++ "." ++ two_digits (month self) ++ "."
  ++ four_digits (year self).

(** ** [datetime.strptime(data_string, "%d.%m.%Y")] *)

(** A backtracking matcher yields every way to match a prefix of its
    input, as (matched text, rest), in the order [re] tries them. *)
Definition matcher : Type := list ascii -> list (list ascii * list ascii).

Definition re_class (p : ascii -> bool) : matcher :=
  fun s =>
    match s with
    | c :: r => if p c then [([c], r)] else []
    | [] => []
    end.

Definition re_chr (c : ascii) : matcher := re_class (Ascii.eqb c).

Definition in_range (lo hi c : ascii) : bool :=
  ((code lo <=? code c) && (code c <=? code hi))%N.

Definition re_range (lo hi : ascii) : matcher := re_class (in_range lo hi).

Definition re_d_class : matcher := re_class char_isdecimal.

Definition re_seq (a b : matcher) : matcher :=
  fun s =>
    flat_map (fun xr => map (fun yr => (fst xr ++ fst yr, snd yr)) (b (snd xr)))
             (a s).

Definition re_alt (a b : matcher) : matcher := fun s => a s ++ b s.

(** [(?P<d>3[0-1]|[1-2]\d|0[1-9]|[1-9]| [1-9])] *)
Definition re_d : matcher :=
  re_alt (re_seq (re_chr "3") (re_range "0" "1"))
    (re_alt (re_seq (re_range "1" "2") re_d_class)
       (re_alt (re_seq (re_chr "0") (re_range "1" "9"))
          (re_alt (re_range "1" "9")
             (re_seq (re_chr " ") (re_range "1" "9"))))).

(** [(?P<m>1[0-2]|0[1-9]|[1-9])] *)
Definition re_m : matcher :=
  re_alt (re_seq (re_chr "1") (re_range "0" "2"))
    (re_alt (re_seq (re_chr "0") (re_range "1" "9"))
       (re_range "1" "9")).

(** [(?P<Y>\d\d\d\d)] *)
Definition re_Y : matcher :=
  re_seq re_d_class (re_seq re_d_class (re_seq re_d_class re_d_class)).

Record groups := mkgroups
  { group_d : list ascii; group_m : list ascii; group_Y : list ascii }.

(** Every match of the pattern compiled from ["%d.%m.%Y"], that is
    [re_d \. re_m \. re_Y], with its groups and the unmatched rest. *)
Definition format_regex_matches (s : list ascii) : list (groups * list ascii) :=
  flat_map (fun d =>
    flat_map (fun dot1 =>
      flat_map (fun m =>
        flat_map (fun dot2 =>
          map (fun y => (mkgroups (fst d) (fst m) (fst y), snd y))
              (re_Y (snd dot2)))
          (re_chr "." (snd m)))
        (re_m (snd dot1)))
      (re_chr "." (snd d)))
    (re_d s).

(** [format_regex.match(data_string)]: the first match, if any. *)
Definition format_regex_match (s : list ascii) : option (groups * list ascii) :=
  hd_error (format_regex_matches s).

Fixpoint lstrip (s : list ascii) : list ascii :=
  match s with
  | c :: r => if Ascii.eqb c " " then lstrip r else s
  | [] => []
  end.

Fixpoint digits_value (acc : Z) (s : list ascii) : option Z :=
  match s with
  | [] => Some acc
  | c :: r =>
      if char_isdecimal c
      then digits_value (acc * 10 + (Z.of_N (code c) - 48)) r
      else None
  end.

(** [int(text)] on the text of a group: decimal digits after optional
    blanks (the groups hold no sign and no underscore). *)
Definition py_int (s : list ascii) : exn + Z :=
  match lstrip s with
  | [] => inl (ValueError (Interpreter InvalidLiteral))
  | t =>
      match digits_value 0 t with
      | Some n => inr n
      | None => inl (ValueError (Interpreter InvalidLiteral))
      end
  end.

(** [datetime.strptime(data_string, "%d.%m.%Y").date()] *)
Definition strptime_dmY (data_string : string) : exn + date :=
  match format_regex_match (list_ascii_of_string data_string) with
  | None => inl (ValueError (Interpreter TimeDataMismatch))
  | Some (found, rest) =>
      match rest with
      | _ :: _ => inl (ValueError (Interpreter UnconvertedData))
      | [] =>
          d <~ py_int (group_d found) ;;
          m <~ py_int (group_m found) ;;
          y <~ py_int (group_Y found) ;;
          date_new y m d
      end
  end.

Definition Birthday (v : string) : exn + Field :=
  match strptime_dmY v with
  | inl (ValueError _) =>
      inl (ValueError (Message "Invalid date format. Use DD.MM.YYYY"))
  | inl e => inl e
  | inr _ => inr (Field__init__ v)
  end.

(** ** Contact records *)

Record ContactRecord := mkRecord
  { name : Field; phones : list Field; birthday : option Field }.

Definition Record__init__ (n : string) : ContactRecord :=
  mkRecord (Name n) [] None.

Definition set_phones (ps : list Field) (self : ContactRecord) : ContactRecord :=
  mkRecord (name self) ps (birthday self).

Definition set_birthday (b : option Field) (self : ContactRecord) : ContactRecord :=
  mkRecord (name self) (phones self) b.

(** The answer of an [__eq__] method. *)
Inductive eq_answer := EqTrue | EqFalse | EqNotImplemented.

(** [str.__eq__(self, other)]: a [str] answers for another [str] only. *)
Definition str__eq__ (self : string) (other : string + Field) : eq_answer :=
  match other with
  | inl t => if (self =? t)%string then EqTrue else EqFalse
  | inr _ => EqNotImplemented
  end.

(** [object.__eq__(self, other)], which [Field] and its subclasses
    inherit, as they define no [__eq__]: it answers for [self] only. *)
Definition object__eq__ (other_is_self : bool) : eq_answer :=
  if other_is_self then EqTrue else EqNotImplemented.

(** [x == p] for a [str] [x] and an instance [p] of [Field]: [x] is asked,
    then [p]; when neither answers, [==] is the identity of the two
    objects, and a [str] is not the object [p], whatever value [p] holds. *)
Definition str_eq_field (x : string) (p : Field) : bool :=
  let x_is_p := false in
  match str__eq__ x (inr p) with
  | EqTrue => true
  | EqFalse => false
  | EqNotImplemented =>
      match object__eq__ x_is_p with
      | EqTrue => true
      | EqFalse => false
      | EqNotImplemented => x_is_p
      end
  end.

(** [x in l] for a list of fields: some element is [x] or equals [x]. *)
Definition str_in (x : string) (l : list Field) : bool :=
  existsb (str_eq_field x) l.

(** [l.index(x)]: the first position whose element equals [x]. *)
Fixpoint list_index (x : string) (l : list Field) : exn + nat :=
  match l with
  | [] => inl (ValueError (Interpreter NotInList))
  | p :: r =>
      if str_eq_field x p then inr O
      else i <~ list_index x r ;; inr (S i)
  end.

(** [l[i] = x] *)
Fixpoint list_setitem {A} (l : list A) (i : nat) (x : A) : exn + list A :=
  match l, i with
  | [], _ => inl IndexError
  | _ :: r, O => inr (x :: r)
  | y :: r, S j => r' <~ list_setitem r j x ;; inr (y :: r')
  end.

Definition Record_add_phone (phone : string) : M ContactRecord unit :=
  self <- get ;;
  if negb (str_in phone (phones self)) then
    p <- lift (Phone phone) ;;
    put (set_phones (phones self ++ [p]) self)
  else ret tt.

Definition Record_remove_phone (phone : string) : M ContactRecord unit :=
  self <- get ;;
  put (set_phones
         (filter (fun p => negb (Field__str__ p =? phone)%string) (phones self))
         self).

Definition Record_edit_phone (old_phone new_phone : string) : M ContactRecord unit :=
  self <- get ;;
  if str_in old_phone (phones self) then
    idx <- lift (list_index old_phone (phones self)) ;;
    p <- lift (Phone new_phone) ;;
    ps <- lift (list_setitem (phones self) idx p) ;;
    put (set_phones ps self)
  else ret tt.

Definition Record_add_birthday (b : string) : M ContactRecord unit :=
  v <- lift (Birthday b) ;;
  self <- get ;;
  put (set_birthday (Some v) self).

Definition Record__str__ (self : ContactRecord) : string :=
  let phones_str := String.concat "; " (map Field__str__ (phones self)) in
  let birthday_str :=
    match birthday self with
    | Some b => Field__str__ b
    | None => "Not specified"
    end in
  "Contact name: " ++ Field__str__ (name self) ++ ", phones: " ++ phones_str
  ++ ", birthday: " ++ birthday_str.

(** ** The address book *)

(** A [dict] with [str] keys: the entries in insertion order. *)
Section Dict.
Context {V : Type}.

Fixpoint dict_get (k : string) (d : list (string * V)) : option V :=
  match d with
  | [] => None
  | (k', v) :: r => if (k' =? k)%string then Some v else dict_get k r
  end.

(** [d[k] = v]: an existing key keeps its place, a new one goes last. *)
Fixpoint dict_set (k : string) (v : V) (d : list (string * V)) : list (string * V) :=
  match d with
  | [] => [(k, v)]
  | (k', v') :: r =>
      if (k' =? k)%string then (k', v) :: r else (k', v') :: dict_set k v r
  end.

(** [del d[k]] *)
Fixpoint dict_del (k : string) (d : list (string * V)) : list (string * V) :=
  match d with
  | [] => []
  | (k', v') :: r =>
      if (k' =? k)%string then r else (k', v') :: dict_del k r
  end.

(** [k in d] *)
Definition dict_contains (k : string) (d : list (string * V)) : bool :=
  match dict_get k d with
  | Some _ => true
  | None => false
  end.

Definition dict_keys (d : list (string * V)) : list string := map fst d.

Definition dict_values (d : list (string * V)) : list V := map snd d.
End Dict.

(** [AddressBook(UserDict)]: the state is its [data]. *)
Definition AddressBook : Type := list (string * ContactRecord).

Definition AddressBook__init__ : AddressBook := [].

Definition AddressBook_add_record (record : ContactRecord) : M AddressBook unit :=
  data <- get ;;
  put (dict_set (value (name record)) record data).

Definition AddressBook_find (n : string) : M AddressBook (option ContactRecord) :=
  data <- get ;;
  ret (dict_get n data).

Definition AddressBook_delete (n : string) : M AddressBook unit :=
  data <- get ;;
  if dict_contains n data then put (dict_del n data) else ret tt.

(** [for x in l: body], with the loop's local variable as accumulator. *)
Fixpoint for_each {S A B} (l : list A) (body : B -> A -> M S B) (acc : B) : M S B :=
  match l with
  | [] => ret acc
  | x :: r => acc' <- body acc x ;; for_each r body acc'
  end.

(** Lines 71 to 73: the occurrence of the birthday looked at. *)
Definition birthday_occurrence (today : date) (b : Field) : exn + date :=
  parsed <~ strptime_dmY (value b) ;;
  birthday_date <~ date_replace_year parsed (year today) ;;
  if date_lt birthday_date today
  then date_replace_year birthday_date (year today + 1)
  else inr birthday_date.

(** The body of the loop of [get_upcoming_birthdays]. *)
Definition upcoming_body (today : date) (upcoming_birthdays : list (string * string))
    (record : ContactRecord) : M AddressBook (list (string * string)) :=
  match birthday record with
  | Some b =>
      birthday_date <- lift (birthday_occurrence today b) ;;
      if date_sub birthday_date today <=? timedelta 7
      then ret (upcoming_birthdays
                  ++ [(value (name record), strftime_dmY birthday_date)])
      else ret upcoming_birthdays
  | None => ret upcoming_birthdays
  end.

Definition AddressBook_get_upcoming_birthdays (today : date)
  : M AddressBook (list (string * string)) :=
  data <- get ;;
  for_each (dict_values data) (upcoming_body today) [].

(** ** Command handlers *)

(** What a handler wrapped by [input_error] returns. *)
Inductive reply :=
| Text (s : string)
| InterpreterText (what : interp_error)   (* str(e), e raised by the interpreter *)
| ErrorText (e : exn).                    (* "Error: " + str(e) *)

Definition input_error {S} (func : M S string) : M S reply :=
  fun s =>
    match func s with
    | (inr r, s') => (inr (Text r), s')
    | (inl (ValueError (Message t)), s') => (inr (Text t), s')
    | (inl (ValueError (Interpreter w)), s') => (inr (InterpreterText w), s')
    | (inl (KeyError _), s') => (inr (Text "No such name found"), s')
    | (inl e, s') => (inr (ErrorText e), s')
    end.

Fixpoint re_repeat (n : nat) (a : matcher) : matcher :=
  match n with
  | O => fun s => [([], s)]
  | S k => re_seq a (re_repeat k a)
  end.

Definition newline : ascii := ascii_of_N 10.

(** [PHONE_PATTERN.match(phone)] for [^\d{10}$]; [$] matches at the end
    and before a newline that ends the string. *)
Definition PHONE_PATTERN_match (phone : string) : bool :=
  existsb (fun xr =>
             match snd xr with
             | [] => true
             | [c] => Ascii.eqb c newline
             | _ => false
             end)
          (re_repeat 10 re_d_class (list_ascii_of_string phone)).

(** [a, b = args] *)
Definition unpack2 (args : list string) : exn + (string * string) :=
  match args with
  | [a; b] => inr (a, b)
  | _ => inl (ValueError (Interpreter UnpackArity))
  end.

(** [a, b, c = args] *)
Definition unpack3 (args : list string) : exn + (string * string * string) :=
  match args with
  | [a; b; c] => inr (a, b, c)
  | _ => inl (ValueError (Interpreter UnpackArity))
  end.

(** A method called on an object that only a local variable refers to:
    the object reached is returned with the method's result. *)
Definition on_local {S T A} (obj : T) (m : M T A) : M S (A * T) :=
  match m obj with
  | (inl e, _) => raise e
  | (inr a, obj') => ret (a, obj')
  end.

(** [book[n].method(...)]: the method runs on the record the book holds
    under [n], and what it does to the record is done in the book. *)
Definition on_record {A} (n : string) (m : M ContactRecord A) : M AddressBook A :=
  fun data =>
    match dict_get n data with
    | None => (inl (KeyError n), data)
    | Some record =>
        let (r, record') := m record in
        (r, dict_set n record' data)
    end.

Definition add_contact_body (args : list string) : M AddressBook string :=
  np <- lift (unpack2 args) ;;
  let n := fst np in
  let phone := snd np in
  if negb (PHONE_PATTERN_match phone) then
    raise (ValueError (Message
      "Invalid phone number format. Please enter a 10-digit number."))
  else
    book <- get ;;
    if negb (dict_contains n book) then
      r <- on_local (Record__init__ n) (Record_add_phone phone) ;;
      AddressBook_add_record (snd r) ;;
      ret "Contact added."
    else
      on_record n (Record_add_phone phone) ;;
      ret "Phone added.".

Definition add_contact (args : list string) : M AddressBook reply :=
  input_error (add_contact_body args).

Definition change_contact_body (args : list string) : M AddressBook string :=
  a <- lift (unpack3 args) ;;
  let n := fst (fst a) in
  let old_phone := snd (fst a) in
  let new_phone := snd a in
  if negb (PHONE_PATTERN_match new_phone) then
    raise (ValueError (Message
      "Invalid phone number format. Please enter a 10-digit number."))
  else
    book <- get ;;
    if dict_contains n book then
      on_record n (Record_edit_phone old_phone new_phone) ;;
      ret "Contact updated."
    else ret "Contact not found.".

Definition change_contact (args : list string) : M AddressBook reply :=
  input_error (change_contact_body args).

Definition add_birthday_body (args : list string) : M AddressBook string :=
  nb <- lift (unpack2 args) ;;
  book <- get ;;
  if dict_contains (fst nb) book then
    on_record (fst nb) (Record_add_birthday (snd nb)) ;;
    ret "Birthday added."
  else ret "Contact not found.".

Definition add_birthday (args : list string) : M AddressBook reply :=
  input_error (add_birthday_body args).

(** ** The reading of the specification *)

(** A string of exactly 10 decimal digits. *)
Definition decimal10 (s : string) : bool :=
  (len s =? 10) && str_all char_isdecimal s.

(** (year, month, day) is a date of the calendar that [date] supports. *)
Definition real_date (y m d : Z) : bool :=
  ((MINYEAR <=? y) && (y <=? MAXYEAR))
  && ((1 <=? m) && (m <=? 12))
  && ((1 <=? d) && (d <=? days_in_month y m)).

(** The operations on a book that the invariant of the mapping is about. *)
Inductive book_op :=
| OpAddRecord (record : ContactRecord)
| OpFind (n : string)
| OpDelete (n : string).

Definition run_op (book : AddressBook) (op : book_op) : AddressBook :=
  match op with
  | OpAddRecord record => final (AddressBook_add_record record book)
  | OpFind n => final (AddressBook_find n book)
  | OpDelete n => final (AddressBook_delete n book)
  end.

Definition run_ops (ops : list book_op) : AddressBook :=
  fold_left run_op ops AddressBook__init__.

(** Keys equal the name of their record, and no two records share a name. *)
Definition book_inv (book : AddressBook) : Prop :=
  (forall k r, In (k, r) book -> k = value (name r))
  /\ NoDup (map (fun kr => value (name (snd kr))) book).

(** ** Sample data *)

(** The string of ten superscript twos, U+00B2. *)
Definition superscript_twos : string :=
  string_of_list_ascii (repeat (ascii_of_N 178) 10).

Definition Bob : ContactRecord :=
  mkRecord (Name "Bob") [Field__init__ "1111111111"] (Some (Field__init__ "12.06.1990")).

(** ** The reading of the birthday query *)

Definition is_date (d : date) : bool := real_date (year d) (month d) (day d).

(** This year's occurrence of the (day, month) of a birthday, next
    year's, and the one the query looks at. *)
Definition this_year_occurrence (today bd : date) : date :=
  mkdate (year today) (month bd) (day bd).

Definition next_year_occurrence (today bd : date) : date :=
  mkdate (year today + 1) (month bd) (day bd).

Definition occurrence (today bd : date) : date :=
  if date_lt (this_year_occurrence today bd) today
  then next_year_occurrence today bd
  else this_year_occurrence today bd.

(** The occurrences that the query builds for a birthday are dates. *)
Definition occurrence_exists (today bd : date) : bool :=
  is_date (this_year_occurrence today bd) && is_date (occurrence today bd).

(** Every birthday set in the records is a stored date whose occurrences
    exist. *)
Definition birthdays_ready (today : date) (records : list ContactRecord) : bool :=
  forallb (fun r =>
             match birthday r with
             | None => true
             | Some b =>
                 match strptime_dmY (value b) with
                 | inr bd => occurrence_exists today bd
                 | inl _ => false
                 end
             end)
          records.

(** The records selected, in the order of the book: those with a birthday
    whose occurrence is at most 7 days after today. *)
Definition selected (today : date) (records : list ContactRecord)
  : list (string * string) :=
  flat_map (fun r =>
              match birthday r with
              | None => []
              | Some b =>
                  match strptime_dmY (value b) with
                  | inr bd =>
                      if date_sub (occurrence today bd) today <=? 7
                      then [(value (name r), strftime_dmY (occurrence today bd))]
                      else []
                  | inl _ => []
                  end
              end)
           records.

(** The book of the scenario of the specification. *)
Definition scenario_book : AddressBook :=
  [("A", mkRecord (Name "A") [] (Some (Field__init__ "12.06.1990")));
   ("B", mkRecord (Name "B") [] (Some (Field__init__ "09.06.1985")));
   ("C", mkRecord (Name "C") [] (Some (Field__init__ "15.06.1970")));
   ("D", mkRecord (Name "D") [] (Some (Field__init__ "20.06.2000")))].

(** A book with a birthday on February 29. *)
Definition leap_book : AddressBook :=
  [("A", mkRecord (Name "A") [] (Some (Field__init__ "12.06.1990")));
   ("L", mkRecord (Name "L") [] (Some (Field__init__ "29.02.2000")))].

(** ** The reading of a birthday text *)

(** The text of a day as [%d] reads it: one digit from 1 to 9, or two
    characters writing 01 to 31, the first of which may be a blank. *)
Definition day_text (s : list ascii) : bool :=
  match s with
  | [a] => in_range "1" "9" a
  | [a; b] =>
      (Ascii.eqb "3" a && in_range "0" "1" b)
      || (in_range "1" "2" a && char_isdecimal b)
      || (Ascii.eqb "0" a && in_range "1" "9" b)
      || (Ascii.eqb " " a && in_range "1" "9" b)
  | _ => false
  end.

(** The text of a month as [%m] reads it: 1 to 9, or 01 to 12. *)
Definition month_text (s : list ascii) : bool :=
  match s with
  | [a] => in_range "1" "9" a
  | [a; b] =>
      (Ascii.eqb "1" a && in_range "0" "2" b)
      || (Ascii.eqb "0" a && in_range "1" "9" b)
  | _ => false
  end.

(** The text of a year as [%Y] reads it: four decimal digits. *)
Definition year_text (s : list ascii) : bool :=
  match s with
  | [a; b; c; d] =>
      char_isdecimal a && char_isdecimal b && char_isdecimal c && char_isdecimal d
  | _ => false
  end.

(** The number that the decimal digits of a text write. *)
Definition number (s : list ascii) : Z :=
  fold_left (fun acc c =>
               if char_isdecimal c then acc * 10 + (Z.of_N (code c) - 48) else acc)
            s 0.

Definition dot : ascii := ".".

(** ** The other command handlers *)

(** [l[0]] *)
Definition list_first {A} (l : list A) : exn + A :=
  match l with
  | [] => inl IndexError
  | x :: _ => inr x
  end.

Definition get_phone_body (args : list string) : M AddressBook string :=
  n <- lift (list_first args) ;;
  book <- get ;;
  if dict_contains n book then
    p <- on_record n (self <- get ;; lift (list_first (phones self))) ;;
    ret ("Phone for " ++ n ++ ": " ++ Field__str__ p)%string
  else ret "Contact not found.".

Definition get_phone (args : list string) : M AddressBook reply :=
  input_error (get_phone_body args).

Definition line_break : string := String newline "".

Definition show_all_contacts_body : M AddressBook string :=
  book <- get ;;
  match book with
  | [] => ret "No contacts available."
  | _ => ret (String.concat line_break (map Record__str__ (dict_values book)))
  end.

Definition show_all_contacts : M AddressBook reply :=
  input_error show_all_contacts_body.

Definition show_birthday_body (args : list string) : M AddressBook string :=
  n <- lift (list_first args) ;;
  book <- get ;;
  if dict_contains n book then
    b <- on_record n (self <- get ;; ret (birthday self)) ;;
    match b with
    | Some v => ret ("Birthday for " ++ n ++ ": " ++ Field__str__ v)%string
    | None => ret "Birthday not specified."
    end
  else ret "Contact not found.".

Definition show_birthday (args : list string) : M AddressBook reply :=
  input_error (show_birthday_body args).

Definition birthdays_body (today : date) : M AddressBook string :=
  upcoming_birthdays <- AddressBook_get_upcoming_birthdays today ;;
  match upcoming_birthdays with
  | [] => ret "No upcoming birthdays."
  | _ =>
      ret (String.concat line_break
             (map (fun nb =>
                     ("Upcoming birthday for " ++ fst nb ++ " on " ++ snd nb)%string)
                  upcoming_birthdays))
  end.

(** [birthdays(_, book)]; the first argument is not looked at. *)
Definition birthdays (today : date) : M AddressBook reply :=
  input_error (birthdays_body today).

(** ** [parse_input] *)

(** [str.isspace] of one character. Below U+0100 the white space is
    U+0009..U+000D, U+001C..U+0020, U+0085 and U+00A0. *)
Definition char_isspace (c : ascii) : bool :=
  (((9 <=? code c) && (code c <=? 13))
   || ((28 <=? code c) && (code c <=? 32))
   || (code c =? 133) || (code c =? 160))%N.

(** [str.lower] of one character. Below U+0100 the capital letters are
    'A'..'Z' and U+00C0..U+00DE without the sign U+00D7; each has its small
    letter 32 places on. *)
Definition char_lower (c : ascii) : ascii :=
  if (((65 <=? code c) && (code c <=? 90))
      || ((192 <=? code c) && (code c <=? 222) && negb (code c =? 215)))%N
  then ascii_of_N (code c + 32)
  else c.

Fixpoint lower (s : string) : string :=
  match s with
  | EmptyString => EmptyString
  | String c r => String (char_lower c) (lower r)
  end.

Fixpoint str_lstrip (s : string) : string :=
  match s with
  | EmptyString => EmptyString
  | String c r => if char_isspace c then str_lstrip r else s
  end.

Fixpoint str_rstrip (s : string) : string :=
  match s with
  | EmptyString => EmptyString
  | String c r =>
      match str_rstrip r with
      | EmptyString => if char_isspace c then EmptyString else String c EmptyString
      | r' => String c r'
      end
  end.

(** [s.strip()] *)
Definition strip (s : string) : string := str_rstrip (str_lstrip s).

(** [s.split()] from a position on, [word] being the characters of the
    word under way: words are the longest runs without white space. *)
Fixpoint split_from (s : string) (word : string) : list string :=
  match s with
  | EmptyString =>
      match word with
      | EmptyString => []
      | _ => [word]
      end
  | String c r =>
      if char_isspace c then
        match word with
        | EmptyString => split_from r EmptyString
        | _ => word :: split_from r EmptyString
        end
      else split_from r (word ++ String c EmptyString)%string
  end.

Definition split (s : string) : list string := split_from s EmptyString.

(** [input_error] around a function of the text alone: its result, or
    the text that stands for the exception. *)
Definition input_error_pure {A} (r : exn + A) : A + reply :=
  match r with
  | inr a => inl a
  | inl (ValueError (Message t)) => inr (Text t)
  | inl (ValueError (Interpreter w)) => inr (InterpreterText w)
  | inl (KeyError _) => inr (Text "No such name found")
  | inl e => inr (ErrorText e)
  end.

(** [cmd, *args = user_input.split()] *)
Definition unpack_first_rest (l : list string) : exn + (string * list string) :=
  match l with
  | [] => inl (ValueError (Interpreter UnpackArity))
  | cmd :: args => inr (cmd, args)
  end.

Definition parse_input_body (user_input : string) : exn + (string * list string) :=
  ca <~ unpack_first_rest (split user_input) ;;
  let cmd := lower (strip (fst ca)) in
  inr (cmd, snd ca).

Definition parse_input (user_input : string) : (string * list string) + reply :=
  input_error_pure (parse_input_body user_input).

(** ** Books that the handlers build *)

Inductive command :=
| CmdAdd (args : list string)
| CmdChange (args : list string)
| CmdPhone (args : list string)
| CmdAll
| CmdAddBirthday (args : list string)
| CmdShowBirthday (args : list string)
| CmdBirthdays (today : date).

Definition run_command (book : AddressBook) (c : command) : AddressBook :=
  match c with
  | CmdAdd args => final (add_contact args book)
  | CmdChange args => final (change_contact args book)
  | CmdPhone args => final (get_phone args book)
  | CmdAll => final (show_all_contacts book)
  | CmdAddBirthday args => final (add_birthday args book)
  | CmdShowBirthday args => final (show_birthday args book)
  | CmdBirthdays today => final (birthdays today book)
  end.

Definition run_commands (cs : list command) : AddressBook :=
  fold_left run_command cs AddressBook__init__.

(** A record with at least one phone, all its phones of 10 decimal
    digits, and a birthday, if set, that [strptime] reads. *)
Definition record_ok (r : ContactRecord) : Prop :=
  phones r <> []
  /\ Forall (fun p => decimal10 (value p) = true) (phones r)
  /\ forall b, birthday r = Some b -> exists d, strptime_dmY (value b) = inr d.

Definition book_ok (book : AddressBook) : Prop :=
  book_inv book /\ forall k r, In (k, r) book -> record_ok r.

(** A word: not empty and without white space. *)
Definition is_word (w : string) : bool :=
  negb (w =? "")%string && str_all (fun c => negb (char_isspace c)) w.

(** No phone of the list has the value [p]. *)
Definition phone_absent (p : string) (ps : list Field) : bool :=
  forallb (fun q => negb (Field__str__ q =? p)%string) ps.

(** No birthday set in the records reads as a February 29, and each one
    reads as a date. *)
Definition no_leap_day (records : list ContactRecord) : bool :=
  forallb (fun r =>
             match birthday r with
             | None => true
             | Some b =>
                 match strptime_dmY (value b) with
                 | inr d => negb ((month d =? 2) && (day d =? 29))
                 | inl _ => false
                 end
             end)
          records.

(** * Properties *)

(** ** Field types *)

Lemma str_all_weaken (p q : ascii -> bool) (s : string) :
  (forall c, p c = true -> q c = true) ->
  str_all p s = true -> str_all q s = true.
Proof.
  intros Hpq. induction s as [|c r IH]; cbn; [reflexivity|].
  intros H. apply andb_true_iff in H as [Hc Hr].
  rewrite (Hpq _ Hc), (IH Hr). reflexivity.
Qed.

Lemma isdigit_len10 (s : string) :
  len s = 10 -> isdigit s = str_all char_isdigit s.
Proof.
  destruct s; [discriminate | reflexivity].
Qed.

Lemma Phone_eq (s : string) :
  Phone s =
  if (len s =? 10) && str_all char_isdigit s
  then inr (Field__init__ s)
  else inl (ValueError (Message "Phone number must contain 10 digits.")).
Proof.
  unfold Phone. destruct (len s =? 10) eqn:Hl; cbn.
  - apply Z.eqb_eq in Hl. rewrite (isdigit_len10 _ Hl).
    destruct (str_all char_isdigit s); reflexivity.
  - rewrite orb_true_r. reflexivity.
Qed.

Lemma Phone_decimal10 (s : string) :
  decimal10 s = true -> Phone s = inr (Field__init__ s).
Proof.
  unfold decimal10. intros H. apply andb_true_iff in H as [Hl Hd].
  rewrite Phone_eq, Hl. cbn.
  rewrite (str_all_weaken char_isdecimal char_isdigit s); [reflexivity| |exact Hd].
  intros c Hc. unfold char_isdigit. rewrite Hc. reflexivity.
Qed.

(** C4, as stated, fails: a string of ten superscript digits is not a
    string of ten decimal digits, yet [Phone] accepts it. *)
Lemma Phone_accepts_superscripts :
  decimal10 superscript_twos = false
  /\ Phone superscript_twos = inr (Field__init__ superscript_twos).
Proof. split; reflexivity. Qed.

(** C4, amended: [Phone(s)] succeeds, and renders as [s], exactly when [s]
    has 10 characters that [str.isdigit] takes for digits, that is decimal
    digits or the superscripts U+00B2, U+00B3 and U+00B9; every string of
    10 decimal digits is such a string; every other string is refused with
    the [ValueError] of the class. *)
Theorem Phone_accepts_ten_digits (s : string) :
  (len s = 10 /\ str_all char_isdigit s = true ->
   Phone s = inr (Field__init__ s) /\ Field__str__ (Field__init__ s) = s)
  /\ (forall c, char_isdigit c = true <->
                char_isdecimal c = true
                \/ code c = 178%N \/ code c = 179%N \/ code c = 185%N)
  /\ (decimal10 s = true ->
      exists p, Phone s = inr p /\ Field__str__ p = s)
  /\ (forall p, Phone s = inr p ->
      Field__str__ p = s /\ len s = 10 /\ str_all char_isdigit s = true)
  /\ (len s <> 10 \/ str_all char_isdigit s = false ->
      Phone s = inl (ValueError (Message "Phone number must contain 10 digits."))).
Proof.
  split; [|split; [|split; [|split]]].
  - intros [Hl Hd]. rewrite Phone_eq, Hd.
    apply Z.eqb_eq in Hl. rewrite Hl. split; reflexivity.
  - intros c. unfold char_isdigit.
    rewrite !orb_true_iff, !N.eqb_eq. tauto.
  - intros H. exists (Field__init__ s).
    split; [apply Phone_decimal10, H | reflexivity].
  - intros p H. rewrite Phone_eq in H.
    destruct (len s =? 10) eqn:Hl; [|discriminate].
    destruct (str_all char_isdigit s) eqn:Hd; [|discriminate].
    inversion H. apply Z.eqb_eq in Hl. auto.
  - intros H. rewrite Phone_eq. destruct H as [H|H].
    + apply Z.eqb_neq in H. rewrite H. reflexivity.
    + rewrite H, andb_false_r. reflexivity.
Qed.

Lemma Phone_accepts_ten_digits_witness :
  (Phone superscript_twos = inr (Field__init__ superscript_twos)
   /\ Field__str__ (Field__init__ superscript_twos) = superscript_twos)
  /\ (exists p, Phone "0123456789" = inr p /\ Field__str__ p = "0123456789")
  /\ Phone "12345"
     = inl (ValueError (Message "Phone number must contain 10 digits.")).
Proof.
  split; [|split].
  - apply (proj1 (Phone_accepts_ten_digits superscript_twos)).
    split; reflexivity.
  - apply (proj1 (proj2 (proj2 (Phone_accepts_ten_digits "0123456789")))).
    reflexivity.
  - apply (proj2 (proj2 (proj2 (proj2 (Phone_accepts_ten_digits "12345"))))).
    left. discriminate.
Defined.

(** ** Contact records *)

Lemma str_in_false (x : string) (l : list Field) : str_in x l = false.
Proof.
  unfold str_in. induction l as [|p r IH]; cbn; [reflexivity | exact IH].
Qed.

Lemma Record_add_phone_eq (phone : string) (self : ContactRecord) :
  Record_add_phone phone self =
  match Phone phone with
  | inl e => (inl e, self)
  | inr p => (inr tt, set_phones (phones self ++ [p]) self)
  end.
Proof.
  unfold Record_add_phone, bind, get. rewrite str_in_false. cbn.
  destruct (Phone phone); reflexivity.
Qed.

(** C2, on the code: [add_phone] never finds its argument among the
    stored phones, so two calls with the same valid number store it
    twice. *)
Theorem add_phone_twice_stores_twice (r : ContactRecord) (p : string) (f : Field) :
  Phone p = inr f ->
  final ((Record_add_phone p ;; Record_add_phone p) r)
  = set_phones (phones r ++ [f; f]) r.
Proof.
  intros H. unfold bind. rewrite Record_add_phone_eq, H.
  rewrite Record_add_phone_eq, H. cbn. unfold set_phones. cbn.
  rewrite <- app_assoc. reflexivity.
Qed.

Lemma add_phone_twice_stores_twice_witness :
  final ((Record_add_phone "1234567890" ;; Record_add_phone "1234567890")
           (Record__init__ "Bob"))
  = mkRecord (Name "Bob")
      [Field__init__ "1234567890"; Field__init__ "1234567890"] None.
Proof.
  apply (add_phone_twice_stores_twice (Record__init__ "Bob") "1234567890"
           (Field__init__ "1234567890")).
  reflexivity.
Defined.

(** C3, on the code: [edit_phone] never finds [old_phone] among the
    stored phones; whatever its arguments, it returns without raising
    and leaves the record as it was. *)
Theorem edit_phone_does_nothing (old_phone new_phone : string) (r : ContactRecord) :
  Record_edit_phone old_phone new_phone r = (inr tt, r).
Proof.
  unfold Record_edit_phone, bind, get. rewrite str_in_false. reflexivity.
Qed.

Lemma Record_add_birthday_eq (b : string) (self : ContactRecord) :
  Record_add_birthday b self =
  match Birthday b with
  | inl e => (inl e, self)
  | inr v => (inr tt, set_birthday (Some v) self)
  end.
Proof.
  unfold Record_add_birthday, bind, get. destruct (Birthday b); reflexivity.
Qed.

(** C8: when [add_phone] or [add_birthday] raises, the record is what it
    was before the call. *)
Theorem no_partial_mutation (r : ContactRecord) (raw : string) :
  (forall e, outcome (Record_add_phone raw r) = inl e ->
             final (Record_add_phone raw r) = r)
  /\ (forall e, outcome (Record_add_birthday raw r) = inl e ->
                final (Record_add_birthday raw r) = r).
Proof.
  split; intros e.
  - rewrite Record_add_phone_eq. destruct (Phone raw); cbn; [reflexivity|discriminate].
  - rewrite Record_add_birthday_eq. destruct (Birthday raw); cbn; [reflexivity|discriminate].
Qed.

Lemma no_partial_mutation_witness :
  final (Record_add_phone "12345" Bob) = Bob
  /\ final (Record_add_birthday "31.02.2024" Bob) = Bob.
Proof.
  split.
  - apply (proj1 (no_partial_mutation Bob "12345")
             (ValueError (Message "Phone number must contain 10 digits."))).
    reflexivity.
  - apply (proj2 (no_partial_mutation Bob "31.02.2024")
             (ValueError (Message "Invalid date format. Use DD.MM.YYYY"))).
    reflexivity.
Defined.

(** ** The address book *)

Section DictFacts.
Context {V : Type}.
Implicit Types (d : list (string * V)) (k : string) (v : V).

Lemma dict_get_keys d k :
  dict_get k d = None <-> ~ In k (dict_keys d).
Proof.
  induction d as [|[k' v'] r IH]; cbn.
  - tauto.
  - destruct (String.eqb_spec k' k) as [->|Hne].
    + split; [discriminate | intros H; exfalso; apply H; now left].
    + rewrite IH. split; [intros H [E|I]; tauto | tauto].
Qed.

Lemma dict_get_In d k v :
  dict_get k d = Some v -> In (k, v) d.
Proof.
  induction d as [|[k' v'] r IH]; cbn; [discriminate|].
  destruct (String.eqb_spec k' k) as [->|Hne].
  - intros H; inversion H; now left.
  - intros H; right; auto.
Qed.

Lemma dict_set_absent d k v :
  dict_get k d = None -> dict_set k v d = d ++ [(k, v)].
Proof.
  induction d as [|[k' v'] r IH]; cbn; [reflexivity|].
  destruct (k' =? k)%string; [discriminate|].
  intros H. rewrite (IH H). reflexivity.
Qed.

Lemma dict_set_keys d k v :
  dict_keys (dict_set k v d)
  = if dict_contains k d then dict_keys d else dict_keys d ++ [k].
Proof.
  unfold dict_contains, dict_keys.
  induction d as [|[k' v'] r IH]; cbn; [reflexivity|].
  destruct (k' =? k)%string; cbn; [reflexivity|].
  rewrite IH. destruct (dict_get k r); reflexivity.
Qed.

Lemma dict_set_In d k v k1 v1 :
  In (k1, v1) (dict_set k v d) -> In (k1, v1) d \/ (k1, v1) = (k, v).
Proof.
  induction d as [|[k' v'] r IH]; cbn.
  - intros [H|[]]; right; now symmetry.
  - destruct (String.eqb_spec k' k) as [->|Hne]; cbn.
    + intros [H|H]; [right; now symmetry | left; now right].
    + intros [H|H]; [left; now left|].
      destruct (IH H) as [I|E]; [left; now right | now right].
Qed.

Lemma dict_get_set_same d k v :
  dict_get k (dict_set k v d) = Some v.
Proof.
  induction d as [|[k' v'] r IH]; cbn.
  - now rewrite String.eqb_refl.
  - destruct (k' =? k)%string eqn:E; cbn; rewrite E; [reflexivity | exact IH].
Qed.

Lemma dict_get_set_other d k v k1 :
  k1 <> k -> dict_get k1 (dict_set k v d) = dict_get k1 d.
Proof.
  intros Hne. induction d as [|[k' v'] r IH]; cbn.
  - destruct (String.eqb_spec k k1); [congruence | reflexivity].
  - destruct (String.eqb_spec k' k) as [->|Hk]; cbn.
    + destruct (String.eqb_spec k k1); [congruence | reflexivity].
    + rewrite IH. reflexivity.
Qed.

Lemma dict_del_In d k k1 v1 :
  In (k1, v1) (dict_del k d) -> In (k1, v1) d.
Proof.
  induction d as [|[k' v'] r IH]; cbn; [tauto|].
  destruct (k' =? k)%string; cbn; [now right|].
  intros [H|H]; [now left | right; auto].
Qed.

Lemma dict_del_keys_In d k k1 :
  In k1 (dict_keys (dict_del k d)) -> In k1 (dict_keys d).
Proof.
  induction d as [|[k' v'] r IH]; cbn; [tauto|].
  destruct (k' =? k)%string; cbn; [now right|].
  intros [H|H]; [now left | right; auto].
Qed.

Lemma dict_del_NoDup d k :
  NoDup (dict_keys d) -> NoDup (dict_keys (dict_del k d)).
Proof.
  induction d as [|[k' v'] r IH]; cbn; [trivial|].
  intros H. inversion H as [|? ? Hn Hr]; subst.
  destruct (k' =? k)%string; cbn; [exact Hr|].
  constructor; [|auto].
  intros I. apply Hn. eapply dict_del_keys_In, I.
Qed.

Lemma dict_set_NoDup d k v :
  NoDup (dict_keys d) -> NoDup (dict_keys (dict_set k v d)).
Proof.
  intros H. rewrite dict_set_keys. unfold dict_contains.
  destruct (dict_get k d) eqn:E; [exact H|].
  apply dict_get_keys in E.
  apply NoDup_app; [exact H | repeat constructor; intros [] |].
  intros x Hx [->|[]]. contradiction.
Qed.
End DictFacts.

Lemma book_names_keys (book : AddressBook) :
  (forall k r, In (k, r) book -> k = value (name r)) ->
  map (fun kr => value (name (snd kr))) book = dict_keys book.
Proof.
  intros H. unfold dict_keys. apply map_ext_in.
  intros [k r] I. cbn. symmetry. apply H, I.
Qed.

Lemma add_record_inv (book : AddressBook) (record : ContactRecord) :
  book_inv book -> book_inv (final (AddressBook_add_record record book)).
Proof.
  intros [Hk Hn]. cbn.
  assert (Hk' : forall k r,
             In (k, r) (dict_set (value (name record)) record book) ->
             k = value (name r)).
  { intros k r I. apply dict_set_In in I as [I|E]; [auto|].
    inversion E; reflexivity. }
  split; [exact Hk'|].
  rewrite (book_names_keys _ Hk'). apply dict_set_NoDup.
  rewrite <- (book_names_keys _ Hk). exact Hn.
Qed.

Lemma delete_inv (book : AddressBook) (n : string) :
  book_inv book -> book_inv (final (AddressBook_delete n book)).
Proof.
  intros [Hk Hn]. unfold AddressBook_delete, bind, get.
  destruct (dict_contains n book); cbn; [|split; assumption].
  assert (Hk' : forall k r, In (k, r) (dict_del n book) -> k = value (name r)).
  { intros k r I. apply Hk. eapply dict_del_In, I. }
  split; [exact Hk'|].
  rewrite (book_names_keys _ Hk'). apply dict_del_NoDup.
  rewrite <- (book_names_keys _ Hk). exact Hn.
Qed.

Lemma run_op_inv (book : AddressBook) (op : book_op) :
  book_inv book -> book_inv (run_op book op).
Proof.
  destruct op; cbn [run_op].
  - apply add_record_inv.
  - trivial.
  - apply delete_inv.
Qed.

(** C9: every book reached from the empty one by [add_record], [find] and
    [delete] has each key equal to the name of its record and no name
    twice; [add_record] and [delete] each keep this invariant. *)
Theorem book_invariant :
  (forall ops, book_inv (run_ops ops))
  /\ (forall book record,
        book_inv book -> book_inv (final (AddressBook_add_record record book)))
  /\ (forall book n,
        book_inv book -> book_inv (final (AddressBook_delete n book))).
Proof.
  split; [|split; [exact add_record_inv | exact delete_inv]].
  intros ops. unfold run_ops.
  assert (H : book_inv AddressBook__init__).
  { split; [intros k r [] | constructor]. }
  revert H. generalize AddressBook__init__ as book.
  induction ops as [|op ops IH]; intros book H; cbn; [exact H|].
  apply IH, run_op_inv, H.
Qed.

Lemma book_invariant_witness :
  book_inv (final (AddressBook_add_record Bob [("Ann", Record__init__ "Ann")]))
  /\ book_inv (final (AddressBook_delete "Ann" [("Ann", Record__init__ "Ann")])).
Proof.
  assert (H : book_inv [("Ann", Record__init__ "Ann")]).
  { exact (proj1 book_invariant [OpAddRecord (Record__init__ "Ann")]). }
  split.
  - exact (proj1 (proj2 book_invariant) _ Bob H).
  - exact (proj2 (proj2 book_invariant) _ "Ann" H).
Defined.

Lemma for_each_frame {S A B} (body : B -> A -> M S B) (l : list A) :
  (forall acc x s, final (body acc x s) = s) ->
  forall acc s, final (for_each l body acc s) = s.
Proof.
  intros Hb. induction l as [|x r IH]; intros acc s; cbn; [reflexivity|].
  unfold bind. specialize (Hb acc x s).
  destruct (body acc x s) as [[e|acc'] s']; cbn in *; subst; [reflexivity|].
  apply IH.
Qed.

Lemma upcoming_body_frame (today : date) acc record (book : AddressBook) :
  final (upcoming_body today acc record book) = book.
Proof.
  unfold upcoming_body. destruct (birthday record); [|reflexivity].
  unfold bind. destruct (birthday_occurrence today f); cbn; [reflexivity|].
  destruct (_ <=? _); reflexivity.
Qed.

(** C10: [get_upcoming_birthdays] leaves the book as it found it, whether
    it returns or raises. *)
Theorem get_upcoming_birthdays_read_only (today : date) (book : AddressBook) :
  final (AddressBook_get_upcoming_birthdays today book) = book.
Proof.
  unfold AddressBook_get_upcoming_birthdays, bind, get.
  apply for_each_frame. intros acc x s. apply upcoming_body_frame.
Qed.

(** ** Matchers *)

Lemma in_re_class (p : ascii -> bool) s x r :
  In (x, r) (re_class p s) <-> exists c, p c = true /\ x = [c] /\ s = c :: r.
Proof.
  unfold re_class. destruct s as [|c s']; cbn.
  - split; [tauto | intros (c & _ & _ & H); discriminate].
  - destruct (p c) eqn:Hc; cbn.
    + split.
      * intros [H|[]]. inversion H; subst. eauto.
      * intros (c' & _ & -> & H). inversion H; subst. now left.
    + split; [tauto|]. intros (c' & Hc' & _ & H). inversion H; subst. congruence.
Qed.

Lemma in_re_seq (a b : matcher) s x r :
  In (x, r) (re_seq a b s) <->
  exists x1 r1 x2, In (x1, r1) (a s) /\ In (x2, r) (b r1) /\ x = x1 ++ x2.
Proof.
  unfold re_seq. rewrite in_flat_map. split.
  - intros ([x1 r1] & Ha & Hb). apply in_map_iff in Hb as ([x2 r2] & E & Hb).
    cbn in E. inversion E; subst. exists x1, r1, x2. auto.
  - intros (x1 & r1 & x2 & Ha & Hb & ->). exists (x1, r1). split; [exact Ha|].
    apply in_map_iff. exists (x2, r). auto.
Qed.

Lemma in_re_alt (a b : matcher) s x r :
  In (x, r) (re_alt a b s) <-> In (x, r) (a s) \/ In (x, r) (b s).
Proof. unfold re_alt. apply in_app_iff. Qed.

Lemma str_all_forallb (p : ascii -> bool) (s : string) :
  str_all p s = forallb p (list_ascii_of_string s).
Proof. induction s as [|c r IH]; cbn; [reflexivity | now rewrite IH]. Qed.

Lemma length_list_ascii (s : string) :
  List.length (list_ascii_of_string s) = String.length s.
Proof. induction s as [|c r IH]; cbn; [reflexivity | now rewrite IH]. Qed.

Lemma re_repeat_digits (l rest : list ascii) :
  forallb char_isdecimal l = true ->
  In (l, rest) (re_repeat (List.length l) re_d_class (l ++ rest)).
Proof.
  induction l as [|c l IH]; cbn [forallb List.length re_repeat app].
  - intros _. now left.
  - intros H. apply andb_true_iff in H as [Hc Hl].
    apply in_re_seq. exists [c], (l ++ rest), l. repeat split.
    + apply in_re_class. exists c. auto.
    + apply IH, Hl.
Qed.

Lemma PHONE_PATTERN_decimal10 (s : string) :
  decimal10 s = true -> PHONE_PATTERN_match s = true.
Proof.
  unfold decimal10, len. intros H. apply andb_true_iff in H as [Hl Hd].
  apply Z.eqb_eq in Hl. rewrite str_all_forallb in Hd.
  unfold PHONE_PATTERN_match. apply existsb_exists.
  exists (list_ascii_of_string s, []). split; [|reflexivity].
  pose proof (re_repeat_digits _ [] Hd) as H.
  rewrite app_nil_r, length_list_ascii in H.
  replace 10%nat with (String.length s) by lia. exact H.
Qed.

(** ** Command handlers *)

Lemma add_contact_absent (book : AddressBook) (n phone : string) :
  decimal10 phone = true ->
  dict_get n book = None ->
  add_contact [n; phone] book
  = (inr (Text "Contact added."),
     book ++ [(n, mkRecord (Name n) [Field__init__ phone] None)]).
Proof.
  intros Hp Hn.
  unfold add_contact, input_error, add_contact_body, bind, unpack2, lift, ret, get.
  cbn [fst snd]. rewrite (PHONE_PATTERN_decimal10 _ Hp). cbn [negb].
  unfold dict_contains. rewrite Hn. cbn [negb].
  unfold on_local. rewrite Record_add_phone_eq, (Phone_decimal10 _ Hp).
  unfold ret, AddressBook_add_record, bind, get, put. cbn.
  rewrite (dict_set_absent _ _ _ Hn). reflexivity.
Qed.

Lemma add_contact_present (book : AddressBook) (n phone : string) (r : ContactRecord) :
  decimal10 phone = true ->
  dict_get n book = Some r ->
  add_contact [n; phone] book
  = (inr (Text "Phone added."),
     dict_set n (set_phones (phones r ++ [Field__init__ phone]) r) book).
Proof.
  intros Hp Hn.
  unfold add_contact, input_error, add_contact_body, bind, unpack2, lift, ret, get.
  cbn [fst snd]. rewrite (PHONE_PATTERN_decimal10 _ Hp). cbn [negb].
  unfold dict_contains. rewrite Hn. cbn [negb].
  unfold on_record. rewrite Hn, Record_add_phone_eq, (Phone_decimal10 _ Hp).
  reflexivity.
Qed.

(** C7: [add] is an upsert. For a phone of 10 decimal digits: an absent
    name gets a new record holding that phone, put last in the book; a
    present name keeps its record and its place, and the phone is
    appended to the record's phones, without error; adding two phones
    for Bob to the empty book gives one record with the two in order. *)
Theorem add_contact_upsert (book : AddressBook) (n phone : string) :
  decimal10 phone = true ->
  (dict_get n book = None ->
   add_contact [n; phone] book
   = (inr (Text "Contact added."),
      book ++ [(n, mkRecord (Name n) [Field__init__ phone] None)]))
  /\ (forall r, dict_get n book = Some r ->
      let book' := final (add_contact [n; phone] book) in
      outcome (add_contact [n; phone] book) = inr (Text "Phone added.")
      /\ dict_get n book'
         = Some (mkRecord (name r) (phones r ++ [Field__init__ phone]) (birthday r))
      /\ dict_keys book' = dict_keys book
      /\ forall n', n' <> n -> dict_get n' book' = dict_get n' book)
  /\ final ((add_contact ["Bob"; "1111111111"] ;;
             add_contact ["Bob"; "2222222222"]) AddressBook__init__)
     = [("Bob", mkRecord (Name "Bob")
                  [Field__init__ "1111111111"; Field__init__ "2222222222"] None)].
Proof.
  intros Hp. split; [|split].
  - apply add_contact_absent, Hp.
  - intros r Hr book'. subst book'.
    rewrite (add_contact_present _ _ _ _ Hp Hr). cbn [outcome final fst snd].
    repeat split.
    + apply dict_get_set_same.
    + rewrite dict_set_keys. unfold dict_contains. now rewrite Hr.
    + intros n' Hn'. apply dict_get_set_other, Hn'.
  - reflexivity.
Qed.

Lemma add_contact_upsert_witness :
  (outcome (add_contact ["Bob"; "2222222222"] [("Bob", Bob)])
   = inr (Text "Phone added.")
   /\ dict_get "Bob" (final (add_contact ["Bob"; "2222222222"] [("Bob", Bob)]))
      = Some (mkRecord (Name "Bob")
                [Field__init__ "1111111111"; Field__init__ "2222222222"]
                (Some (Field__init__ "12.06.1990"))))
  /\ add_contact ["Ann"; "0123456789"] [("Bob", Bob)]
     = (inr (Text "Contact added."),
        [("Bob", Bob);
         ("Ann", mkRecord (Name "Ann") [Field__init__ "0123456789"] None)]).
Proof.
  split.
  - destruct (proj1 (proj2 (add_contact_upsert [("Bob", Bob)] "Bob" "2222222222"
                              eq_refl)) Bob eq_refl) as (H1 & H2 & _).
    split; [exact H1 | exact H2].
  - apply (proj1 (add_contact_upsert [("Bob", Bob)] "Ann" "0123456789" eq_refl)).
    reflexivity.
Defined.

(** ** Calendar dates *)

Lemma date_new_real (y m d : Z) :
  real_date y m d = true -> date_new y m d = inr (mkdate y m d).
Proof.
  unfold real_date, date_new. intros H.
  apply andb_true_iff in H as [H Hd]. apply andb_true_iff in H as [Hy Hm].
  rewrite Hy, Hm, Hd. reflexivity.
Qed.

Lemma date_new_inv (y m d : Z) (r : date) :
  date_new y m d = inr r -> r = mkdate y m d /\ real_date y m d = true.
Proof.
  unfold real_date, date_new.
  destruct (_ && _); cbn; [|discriminate].
  destruct (_ && _); cbn; [|discriminate].
  destruct (_ && _); cbn; [|discriminate].
  intros H; inversion H; auto.
Qed.

Lemma date_new_error (y m d : Z) (e : exn) :
  date_new y m d = inl e -> exists w, e = ValueError w.
Proof.
  unfold date_new.
  repeat (destruct (negb _); [intros H; inversion H; eauto|]).
  discriminate.
Qed.

Lemma is_leap_spec (y : Z) :
  is_leap y = true <-> (y mod 4 = 0 /\ (y mod 100 <> 0 \/ y mod 400 = 0)).
Proof.
  unfold is_leap.
  rewrite andb_true_iff, orb_true_iff, negb_true_iff, !Z.eqb_eq, Z.eqb_neq.
  tauto.
Qed.

Lemma days_before_year_succ (y : Z) :
  days_before_year (y + 1)
  = days_before_year y + 365 + (if is_leap y then 1 else 0).
Proof.
  unfold days_before_year.
  replace (y + 1 - 1) with y by lia.
  destruct (is_leap y) eqn:L.
  - apply is_leap_spec in L. Z.div_mod_to_equations. lia.
  - assert (N : ~ (y mod 4 = 0 /\ (y mod 100 <> 0 \/ y mod 400 = 0))).
    { intros H. apply is_leap_spec in H. congruence. }
    Z.div_mod_to_equations. lia.
Qed.

Lemma days_before_year_mono (y y' : Z) :
  y <= y' -> days_before_year y <= days_before_year y'.
Proof.
  unfold days_before_year. intros H. Z.div_mod_to_equations. lia.
Qed.

Lemma month_cases (m : Z) :
  1 <= m <= 12 ->
  m = 1 \/ m = 2 \/ m = 3 \/ m = 4 \/ m = 5 \/ m = 6 \/ m = 7 \/ m = 8
  \/ m = 9 \/ m = 10 \/ m = 11 \/ m = 12.
Proof. lia. Qed.

Ltac each_month H :=
  apply month_cases in H;
  destruct H as [->|[->|[->|[->|[->|[->|[->|[->|[->|[->|[->| ->]]]]]]]]]]].

Lemma days_in_year_bound (y m d : Z) :
  1 <= m <= 12 -> d <= days_in_month y m ->
  days_before_month y m + d <= 365 + (if is_leap y then 1 else 0).
Proof.
  intros Hm Hd. unfold days_before_month, days_in_month in *.
  each_month Hm; destruct (is_leap y); cbn -[Z.add Z.le Z.lt] in *; lia.
Qed.

Lemma days_before_next_month (y m m' d : Z) :
  1 <= m <= 12 -> 1 <= m' <= 12 -> m < m' -> d <= days_in_month y m ->
  days_before_month y m + d <= days_before_month y m'.
Proof.
  intros Hm Hm' Hlt Hd. unfold days_before_month, days_in_month in *.
  each_month Hm; each_month Hm'; try lia; destruct (is_leap y); cbn -[Z.add Z.le Z.lt] in *; lia.
Qed.

Lemma days_before_month_nonneg (y m : Z) :
  1 <= m <= 12 -> 0 <= days_before_month y m.
Proof.
  intros Hm. unfold days_before_month.
  each_month Hm; destruct (is_leap y); cbn -[Z.add Z.le Z.lt]; lia.
Qed.

Lemma is_date_spec (a : date) :
  is_date a = true ->
  1 <= year a <= 9999 /\ 1 <= month a <= 12
  /\ 1 <= day a <= days_in_month (year a) (month a).
Proof.
  unfold is_date, real_date, MINYEAR, MAXYEAR. intros H.
  apply andb_true_iff in H as [H Hd]. apply andb_true_iff in H as [Hy Hm].
  apply andb_true_iff in Hy as [? ?]. apply andb_true_iff in Hm as [? ?].
  apply andb_true_iff in Hd as [? ?]. lia.
Qed.

(** The order of dates agrees with the order of their ordinals. *)
Lemma toordinal_lt (a b : date) :
  is_date a = true -> is_date b = true ->
  date_lt a b = true -> toordinal a < toordinal b.
Proof.
  intros Ha Hb. apply is_date_spec in Ha as (Hya & Hma & Hda).
  apply is_date_spec in Hb as (Hyb & Hmb & Hdb).
  unfold date_lt, toordinal, ymd_to_ord.
  pose proof (days_before_month_nonneg (year b) (month b) Hmb).
  intros H1.
  apply orb_true_iff in H1 as [Hy | H1];
    [apply Z.ltb_lt in Hy
    | apply andb_true_iff in H1 as [Hy H1]; apply Z.eqb_eq in Hy;
      apply orb_true_iff in H1 as [Hm | H1];
      [apply Z.ltb_lt in Hm
      | apply andb_true_iff in H1 as [Hm Hd];
        apply Z.eqb_eq in Hm; apply Z.ltb_lt in Hd]].
  - pose proof (days_in_year_bound (year a) (month a) (day a) Hma (proj2 Hda)).
    pose proof (days_before_year_succ (year a)).
    pose proof (days_before_year_mono (year a + 1) (year b)). lia.
  - rewrite Hy in *.
    pose proof (days_before_next_month (year b) (month a) (month b) (day a)
                  Hma Hmb Hm (proj2 Hda)). lia.
  - rewrite Hy, Hm. lia.
Qed.

Lemma date_lt_total (a b : date) :
  date_lt a b = false -> a = b \/ date_lt b a = true.
Proof.
  destruct a as [ya ma da], b as [yb mb db]. unfold date_lt. cbn.
  intros H.
  destruct (Z.lt_total ya yb) as [L|[E|G]];
    [apply Z.ltb_lt in L; rewrite L in H; discriminate| |
     apply Z.ltb_lt in G; rewrite G; auto].
  subst yb. rewrite Z.ltb_irrefl, Z.eqb_refl in *. cbn in *.
  destruct (Z.lt_total ma mb) as [L|[E|G]];
    [apply Z.ltb_lt in L; rewrite L in H; discriminate| |
     apply Z.ltb_lt in G; rewrite G; auto].
  subst mb. rewrite Z.ltb_irrefl, Z.eqb_refl in *. cbn in *.
  destruct (Z.lt_total da db) as [L|[E|G]];
    [apply Z.ltb_lt in L; rewrite L in H; discriminate| |
     apply Z.ltb_lt in G; rewrite G; auto].
  subst. auto.
Qed.

Lemma toordinal_le (a b : date) :
  is_date a = true -> is_date b = true ->
  date_lt a b = false -> toordinal b <= toordinal a.
Proof.
  intros Ha Hb H. apply date_lt_total in H as [->|H]; [lia|].
  pose proof (toordinal_lt b a Hb Ha H). lia.
Qed.

(** ** The birthday query *)

Lemma birthday_occurrence_ready (today bd : date) (b : Field) :
  strptime_dmY (value b) = inr bd ->
  occurrence_exists today bd = true ->
  birthday_occurrence today b = inr (occurrence today bd).
Proof.
  intros Hp He. unfold occurrence_exists in He.
  apply andb_true_iff in He as [Ht Ho].
  unfold birthday_occurrence. rewrite Hp. cbn [ebind].
  unfold date_replace_year.
  unfold is_date in Ht. cbn [this_year_occurrence year month day] in Ht.
  rewrite (date_new_real _ _ _ Ht). cbn [ebind].
  fold (this_year_occurrence today bd).
  unfold occurrence in *.
  destruct (date_lt (this_year_occurrence today bd) today); [|reflexivity].
  cbn [this_year_occurrence month day]. apply date_new_real, Ho.
Qed.

Lemma upcoming_loop (today : date) (records : list ContactRecord) :
  birthdays_ready today records = true ->
  forall acc (book : AddressBook),
    for_each records (upcoming_body today) acc book
    = (inr (acc ++ selected today records), book).
Proof.
  induction records as [|r rs IH]; intros Hr acc book; cbn.
  - unfold ret. now rewrite app_nil_r.
  - cbn in Hr. apply andb_true_iff in Hr as [Hr Hrs].
    unfold bind, upcoming_body at 1.
    destruct (birthday r) as [b|]; [|cbn; apply IH, Hrs].
    destruct (strptime_dmY (value b)) as [|bd] eqn:Hp; [discriminate|].
    unfold bind. rewrite (birthday_occurrence_ready _ _ _ Hp Hr). cbn [lift ret].
    unfold timedelta.
    destruct (date_sub (occurrence today bd) today <=? 7); cbn [ret].
    + rewrite (IH Hrs). now rewrite <- app_assoc.
    + rewrite (IH Hrs). reflexivity.
Qed.

Lemma in_selected (today : date) (records : list ContactRecord) (n f : string) :
  In (n, f) (selected today records) <->
  exists r b bd,
    In r records /\ birthday r = Some b /\ strptime_dmY (value b) = inr bd
    /\ date_sub (occurrence today bd) today <= 7
    /\ n = value (name r) /\ f = strftime_dmY (occurrence today bd).
Proof.
  unfold selected. rewrite in_flat_map. split.
  - intros (r & Hr & H).
    destruct (birthday r) as [b|] eqn:Hb; [|destruct H].
    destruct (strptime_dmY (value b)) as [|bd] eqn:Hp; [destruct H|].
    destruct (_ <=? 7) eqn:Hw; [|destruct H].
    destruct H as [H|[]]. inversion H; subst.
    exists r, b, bd. apply Z.leb_le in Hw. auto 10.
  - intros (r & b & bd & Hr & Hb & Hp & Hw & -> & ->).
    exists r. split; [exact Hr|]. rewrite Hb, Hp.
    apply Z.leb_le in Hw. rewrite Hw. now left.
Qed.

Lemma occurrence_not_before (today bd : date) :
  is_date today = true ->
  occurrence_exists today bd = true ->
  date_lt (occurrence today bd) today = false
  /\ 0 <= date_sub (occurrence today bd) today.
Proof.
  intros Ht He. unfold occurrence_exists in He.
  apply andb_true_iff in He as [Hthis Ho].
  unfold date_sub. unfold occurrence in *.
  destruct (date_lt (this_year_occurrence today bd) today) eqn:L.
  - assert (G : date_lt today (next_year_occurrence today bd) = true).
    { unfold date_lt. cbn. apply orb_true_iff. left. apply Z.ltb_lt. lia. }
    pose proof (toordinal_lt _ _ Ht Ho G). split; [|lia].
    destruct (date_lt (next_year_occurrence today bd) today) eqn:L'; [|reflexivity].
    pose proof (toordinal_lt _ _ Ho Ht L'). lia.
  - split; [exact L|]. pose proof (toordinal_le _ _ Hthis Ht L). lia.
Qed.

Lemma digit_char_inj (n m : Z) :
  0 <= n <= 9 -> 0 <= m <= 9 -> digit_char n = digit_char m -> n = m.
Proof.
  intros Hn Hm H. unfold digit_char in H.
  apply (f_equal N_of_ascii) in H.
  rewrite !N_ascii_embedding in H by lia. lia.
Qed.

Lemma two_digits_inj (n m : Z) :
  0 <= n <= 99 -> 0 <= m <= 99 -> two_digits n = two_digits m -> n = m.
Proof.
  intros Hn Hm H. unfold two_digits in H. inversion H as [[H1 H2]].
  apply digit_char_inj in H1; [|Z.div_mod_to_equations; lia ..].
  apply digit_char_inj in H2; [|Z.div_mod_to_equations; lia ..].
  Z.div_mod_to_equations. lia.
Qed.

Lemma four_digits_inj (n m : Z) :
  0 <= n <= 9999 -> 0 <= m <= 9999 -> four_digits n = four_digits m -> n = m.
Proof.
  intros Hn Hm H. unfold four_digits, two_digits in H.
  inversion H as [[H1 H2 H3 H4]].
  apply digit_char_inj in H1; [|Z.div_mod_to_equations; lia ..].
  apply digit_char_inj in H2; [|Z.div_mod_to_equations; lia ..].
  apply digit_char_inj in H3; [|Z.div_mod_to_equations; lia ..].
  apply digit_char_inj in H4; [|Z.div_mod_to_equations; lia ..].
  Z.div_mod_to_equations. lia.
Qed.

Lemma days_in_month_le (y m : Z) : days_in_month y m <= 31.
Proof.
  unfold days_in_month, DAYS_IN_MONTH.
  destruct ((m =? 2) && is_leap y); [lia|].
  destruct m as [|p|p]; try lia.
  do 4 (destruct p as [p|p|]; try lia).
Qed.

Lemma strftime_dmY_inj (a b : date) :
  is_date a = true -> is_date b = true ->
  strftime_dmY a = strftime_dmY b -> a = b.
Proof.
  intros Ha Hb H.
  apply is_date_spec in Ha as (Hya & Hma & Hda).
  apply is_date_spec in Hb as (Hyb & Hmb & Hdb).
  pose proof (days_in_month_le (year a) (month a)).
  pose proof (days_in_month_le (year b) (month b)).
  destruct a as [ya ma da], b as [yb mb db]. cbn [year month day] in *.
  unfold strftime_dmY in H. cbn [year month day] in H.
  unfold two_digits at 1 3 in H. unfold two_digits at 1 2 in H.
  cbn [String.append] in H.
  inversion H as [[D1 D2 M1 M2 Y1 Y2 Y3 Y4]].
  assert (Ed : two_digits da = two_digits db) by (unfold two_digits; congruence).
  assert (Em : two_digits ma = two_digits mb) by (unfold two_digits; congruence).
  assert (Ey : four_digits ya = four_digits yb)
    by (unfold four_digits, two_digits; congruence).
  apply two_digits_inj in Ed; [|lia ..].
  apply two_digits_inj in Em; [|lia ..].
  apply four_digits_inj in Ey; [|lia ..].
  congruence.
Qed.

Lemma ready_record (today : date) (records : list ContactRecord) r b bd :
  birthdays_ready today records = true ->
  In r records -> birthday r = Some b -> strptime_dmY (value b) = inr bd ->
  occurrence_exists today bd = true.
Proof.
  intros H Hr Hb Hp. unfold birthdays_ready in H.
  rewrite forallb_forall in H. specialize (H r Hr).
  rewrite Hb, Hp in H. exact H.
Qed.

(** C1: when the occurrences of the birthdays set in the book exist, the
    query returns, in the order of the book, the records with a birthday
    whose occurrence (this year's, or next year's when this year's
    precedes today) is at most 7 days after today, each with that
    occurrence; no occurrence precedes today, and a record with a birthday
    is in the result exactly when its occurrence minus today is at most 7
    days. Today is a date of a year that [strftime] writes with four
    digits. *)
Theorem upcoming_birthdays_window (today : date) (book : AddressBook) :
  1000 <= year today ->
  is_date today = true ->
  birthdays_ready today (dict_values book) = true ->
  outcome (AddressBook_get_upcoming_birthdays today book)
  = inr (selected today (dict_values book))
  /\ forall r b bd,
      In r (dict_values book) -> birthday r = Some b ->
      strptime_dmY (value b) = inr bd ->
      birthday_occurrence today b = inr (occurrence today bd)
      /\ 0 <= date_sub (occurrence today bd) today
      /\ (In (value (name r), strftime_dmY (occurrence today bd))
             (selected today (dict_values book))
          <-> date_sub (occurrence today bd) today <= 7).
Proof.
  intros _ Ht Hr. split.
  - unfold AddressBook_get_upcoming_birthdays, bind, get.
    rewrite (upcoming_loop _ _ Hr). reflexivity.
  - intros r b bd Ir Hb Hp.
    pose proof (ready_record _ _ _ _ _ Hr Ir Hb Hp) as He.
    split; [apply birthday_occurrence_ready; assumption|].
    split; [apply occurrence_not_before; assumption|].
    rewrite in_selected. split.
    + intros (r' & b' & bd' & Ir' & Hb' & Hp' & Hw & _ & Hf).
      pose proof (ready_record _ _ _ _ _ Hr Ir' Hb' Hp') as He'.
      unfold occurrence_exists in He, He'.
      apply andb_true_iff in He as [_ Ho]. apply andb_true_iff in He' as [_ Ho'].
      rewrite (strftime_dmY_inj _ _ Ho Ho' Hf). exact Hw.
    + intros Hw. exists r, b, bd. auto 10.
Qed.

Lemma upcoming_birthdays_window_witness :
  outcome (AddressBook_get_upcoming_birthdays (mkdate 2024 6 10) scenario_book)
  = inr [("A", "12.06.2024"); ("C", "15.06.2024")].
Proof.
  refine (proj1 (upcoming_birthdays_window (mkdate 2024 6 10) scenario_book
                   _ eq_refl eq_refl)).
  cbn. lia.
Defined.

Lemma py_int_error (s : list ascii) (e : exn) :
  py_int s = inl e -> exists w, e = ValueError w.
Proof.
  unfold py_int. destruct (lstrip s); [intros H; inversion H; eauto|].
  destruct (digits_value 0 _); intros H; inversion H; eauto.
Qed.

Lemma strptime_error (s : string) (e : exn) :
  strptime_dmY s = inl e -> exists w, e = ValueError w.
Proof.
  unfold strptime_dmY.
  destruct (format_regex_match _) as [[found rest]|]; [|intros H; inversion H; eauto].
  destruct rest; [|intros H; inversion H; eauto].
  destruct (py_int (group_d found)) eqn:Ed; cbn [ebind];
    [intros H; inversion H; subst; eapply py_int_error, Ed|].
  destruct (py_int (group_m found)) eqn:Em; cbn [ebind];
    [intros H; inversion H; subst; eapply py_int_error, Em|].
  destruct (py_int (group_Y found)) eqn:Ey; cbn [ebind];
    [intros H; inversion H; subst; eapply py_int_error, Ey|].
  apply date_new_error.
Qed.

Lemma birthday_occurrence_error (today : date) (b : Field) (e : exn) :
  birthday_occurrence today b = inl e -> exists w, e = ValueError w.
Proof.
  unfold birthday_occurrence, date_replace_year.
  destruct (strptime_dmY (value b)) eqn:Ep; cbn [ebind];
    [intros H; inversion H; subst; eapply strptime_error, Ep|].
  destruct (date_new (year today) (month d) (day d)) eqn:En; cbn [ebind];
    [intros H; inversion H; subst; eapply date_new_error, En|].
  destruct (date_lt d0 today); [apply date_new_error | discriminate].
Qed.

Lemma upcoming_body_error (today : date) acc record (book : AddressBook) (e : exn) :
  outcome (upcoming_body today acc record book) = inl e ->
  exists w, e = ValueError w.
Proof.
  unfold upcoming_body. destruct (birthday record) as [b|]; [|discriminate].
  unfold bind. destruct (birthday_occurrence today b) eqn:Eo; cbn.
  - intros H; inversion H; subst. eapply birthday_occurrence_error, Eo.
  - destruct (_ <=? _); discriminate.
Qed.

Lemma date_new_feb29 (y : Z) :
  is_leap y = false -> exists w, date_new y 2 29 = inl (ValueError w).
Proof.
  intros L. unfold date_new, days_in_month. rewrite L. cbn.
  destruct (negb _); eauto.
Qed.

Lemma leap_day_occurrence_error (today : date) (b : Field) (y : Z) :
  strptime_dmY (value b) = inr (mkdate y 2 29) ->
  is_leap (year today) = false
  \/ (date_lt (mkdate (year today) 2 29) today = true
      /\ is_leap (year today + 1) = false) ->
  exists w, birthday_occurrence today b = inl (ValueError w).
Proof.
  intros Hp H. unfold birthday_occurrence, date_replace_year.
  rewrite Hp. cbn [ebind month day].
  destruct H as [L | [Hlt L]].
  - destruct (date_new_feb29 _ L) as [w ->]. exists w. reflexivity.
  - destruct (date_new (year today) 2 29) as [e|d] eqn:En; cbn [ebind].
    + destruct (date_new_error _ _ _ _ En) as [w ->]. exists w. reflexivity.
    + apply date_new_inv in En as [-> _]. rewrite Hlt. cbn [month day].
      apply date_new_feb29, L.
Qed.

Lemma loop_raises (today : date) (r : ContactRecord) (l : list ContactRecord) :
  In r l ->
  (forall acc (book : AddressBook),
      exists w, outcome (upcoming_body today acc r book) = inl (ValueError w)) ->
  forall acc (book : AddressBook),
    exists w, outcome (for_each l (upcoming_body today) acc book)
              = inl (ValueError w).
Proof.
  intros Hr Hraise. induction l as [|x xs IH]; [destruct Hr|].
  intros acc book. cbn [for_each]. unfold bind.
  destruct (upcoming_body today acc x book) as [[e|acc'] book'] eqn:Eb.
  - destruct (upcoming_body_error today acc x book e) as [w ->];
      [rewrite Eb; reflexivity | exists w; reflexivity].
  - destruct Hr as [->|Hr]; [|apply IH, Hr].
    destruct (Hraise acc book) as [w Hw]. rewrite Eb in Hw. discriminate.
Qed.

(** C6: with a record whose birthday is February 29 in the book, the
    query raises when the year it builds the occurrence in (today's, or
    the next one when this year's February 29 precedes today) is not a
    leap year. *)
Theorem leap_day_birthday_raises (today : date) (book : AddressBook)
    (k : string) (r : ContactRecord) (b : Field) (y : Z) :
  In (k, r) book ->
  birthday r = Some b ->
  strptime_dmY (value b) = inr (mkdate y 2 29) ->
  is_leap (year today) = false
  \/ (date_lt (mkdate (year today) 2 29) today = true
      /\ is_leap (year today + 1) = false) ->
  exists w,
    outcome (AddressBook_get_upcoming_birthdays today book)
    = inl (ValueError w).
Proof.
  intros Hin Hb Hp Hy.
  unfold AddressBook_get_upcoming_birthdays, bind, get.
  apply (loop_raises today r).
  - unfold dict_values. apply in_map_iff. exists (k, r). auto.
  - intros acc bk. unfold upcoming_body. rewrite Hb. unfold bind.
    destruct (leap_day_occurrence_error today b y Hp Hy) as [w ->].
    exists w. reflexivity.
Qed.

Lemma leap_day_birthday_raises_witness :
  (exists w,
      outcome (AddressBook_get_upcoming_birthdays (mkdate 2023 6 10) leap_book)
      = inl (ValueError w))
  /\ (exists w,
      outcome (AddressBook_get_upcoming_birthdays (mkdate 2024 6 10) leap_book)
      = inl (ValueError w)).
Proof.
  split.
  - apply (leap_day_birthday_raises (mkdate 2023 6 10) leap_book "L"
             (mkRecord (Name "L") [] (Some (Field__init__ "29.02.2000")))
             (Field__init__ "29.02.2000") 2000).
    + right; left; reflexivity.
    + reflexivity.
    + reflexivity.
    + left; reflexivity.
  - apply (leap_day_birthday_raises (mkdate 2024 6 10) leap_book "L"
             (mkRecord (Name "L") [] (Some (Field__init__ "29.02.2000")))
             (Field__init__ "29.02.2000") 2000).
    + right; left; reflexivity.
    + reflexivity.
    + reflexivity.
    + right; split; reflexivity.
Defined.

(** ** The text of a birthday *)

Lemma in_re_seq2 (p q : ascii -> bool) s x r :
  In (x, r) (re_seq (re_class p) (re_class q) s) <->
  exists a b, p a = true /\ q b = true /\ x = [a; b] /\ s = a :: b :: r.
Proof.
  rewrite in_re_seq. split.
  - intros (x1 & r1 & x2 & H1 & H2 & ->).
    apply in_re_class in H1 as (a & Ha & -> & ->).
    apply in_re_class in H2 as (b & Hb & -> & ->).
    exists a, b. auto.
  - intros (a & b & Ha & Hb & -> & ->).
    exists [a], (b :: r), [b]. repeat split.
    + apply in_re_class. exists a. auto.
    + apply in_re_class. exists b. auto.
Qed.

Lemma in_re_d s x r :
  In (x, r) (re_d s) <-> day_text x = true /\ s = x ++ r.
Proof.
  unfold re_d, re_range, re_chr, re_d_class.
  rewrite !in_re_alt, !in_re_seq2, in_re_class. split.
  - intros [H|[H|[H|[H|H]]]].
    + destruct H as (a & b & Ha & Hb & -> & ->). cbn [day_text month_text app]. now rewrite Ha, Hb.
    + destruct H as (a & b & Ha & Hb & -> & ->). cbn [day_text month_text app].
      rewrite Ha, Hb, !orb_true_r. auto.
    + destruct H as (a & b & Ha & Hb & -> & ->). cbn [day_text month_text app].
      rewrite Ha, Hb, !orb_true_r. auto.
    + destruct H as (a & Ha & -> & ->). cbn [day_text month_text app]. auto.
    + destruct H as (a & b & Ha & Hb & -> & ->). cbn [day_text month_text app].
      rewrite Ha, Hb, !orb_true_r. auto.
  - intros [H ->]. destruct x as [|a [|b [|c x]]]; cbn [day_text month_text] in H; try discriminate.
    + right; right; right; left. exists a. auto.
    + apply orb_true_iff in H as [H|H];
        [apply orb_true_iff in H as [H|H];
         [apply orb_true_iff in H as [H|H]|]|];
        apply andb_true_iff in H as [Ha Hb].
      * left. exists a, b. auto.
      * right; left. exists a, b. auto.
      * right; right; left. exists a, b. auto.
      * right; right; right; right. exists a, b. auto.
Qed.

Lemma in_re_m s x r :
  In (x, r) (re_m s) <-> month_text x = true /\ s = x ++ r.
Proof.
  unfold re_m, re_range, re_chr.
  rewrite !in_re_alt, !in_re_seq2, in_re_class. split.
  - intros [H|[H|H]].
    + destruct H as (a & b & Ha & Hb & -> & ->). cbn [day_text month_text app]. now rewrite Ha, Hb.
    + destruct H as (a & b & Ha & Hb & -> & ->). cbn [day_text month_text app].
      rewrite Ha, Hb, !orb_true_r. auto.
    + destruct H as (a & Ha & -> & ->). cbn [day_text month_text app]. auto.
  - intros [H ->]. destruct x as [|a [|b [|c x]]]; cbn [day_text month_text] in H; try discriminate.
    + right; right. exists a. auto.
    + apply orb_true_iff in H as [H|H]; apply andb_true_iff in H as [Ha Hb].
      * left. exists a, b. auto.
      * right; left. exists a, b. auto.
Qed.

Lemma in_re_Y s x r :
  In (x, r) (re_Y s) <-> year_text x = true /\ s = x ++ r.
Proof.
  unfold re_Y, re_d_class. rewrite in_re_seq. split.
  - intros (x1 & r1 & x2 & H1 & H2 & ->).
    apply in_re_class in H1 as (a & Ha & -> & ->).
    apply in_re_seq in H2 as (x1 & r2 & x2' & H1 & H2 & ->).
    apply in_re_class in H1 as (b & Hb & -> & ->).
    apply in_re_seq2 in H2 as (c & d & Hc & Hd & -> & ->).
    cbn [year_text app]. now rewrite Ha, Hb, Hc, Hd.
  - intros [H ->].
    destruct x as [|a [|b [|c [|d [|e x]]]]]; cbn [year_text] in H; try discriminate.
    apply andb_true_iff in H as [H Hd]. apply andb_true_iff in H as [H Hc].
    apply andb_true_iff in H as [Ha Hb].
    exists [a], (b :: c :: d :: r), [b; c; d]. repeat split.
    + apply in_re_class. exists a. auto.
    + apply in_re_seq. exists [b], (c :: d :: r), [c; d]. repeat split.
      * apply in_re_class. exists b. auto.
      * apply in_re_seq2. exists c, d. auto.
Qed.

Lemma in_re_dot s x r :
  In (x, r) (re_chr dot s) <-> x = [dot] /\ s = dot :: r.
Proof.
  unfold re_chr. rewrite in_re_class. split.
  - intros (c & Hc & -> & ->). apply Ascii.eqb_eq in Hc. subst. auto.
  - intros [-> ->]. exists dot. auto.
Qed.

(** The matches of the pattern are the ways to read the text as a day,
    a dot, a month, a dot and a year, followed by a rest. *)
Lemma in_format_regex_matches s g rest :
  In (g, rest) (format_regex_matches s) <->
  day_text (group_d g) = true /\ month_text (group_m g) = true
  /\ year_text (group_Y g) = true
  /\ s = group_d g ++ dot :: group_m g ++ dot :: group_Y g ++ rest.
Proof.
  unfold format_regex_matches. fold dot. split.
  - intros H.
    apply in_flat_map in H as ([d r1] & Hd & H). apply in_re_d in Hd as [Hd ->].
    apply in_flat_map in H as ([x1 r2] & H1 & H). apply in_re_dot in H1 as [-> E1].
    apply in_flat_map in H as ([m r3] & Hm & H). apply in_re_m in Hm as [Hm E2].
    apply in_flat_map in H as ([x2 r4] & H2 & H). apply in_re_dot in H2 as [-> E3].
    apply in_map_iff in H as ([y r5] & E & Hy). apply in_re_Y in Hy as [Hy E4].
    cbn [fst snd] in *. inversion E; subst. cbn. auto.
  - destruct g as [d m y]. cbn [group_d group_m group_Y].
    intros (Hd & Hm & Hy & ->).
    apply in_flat_map. exists (d, dot :: m ++ dot :: y ++ rest).
    split; [apply in_re_d; auto|].
    apply in_flat_map. exists ([dot], m ++ dot :: y ++ rest).
    split; [apply in_re_dot; auto|].
    apply in_flat_map. exists (m, dot :: y ++ rest).
    split; [apply in_re_m; auto|].
    apply in_flat_map. exists ([dot], y ++ rest).
    split; [apply in_re_dot; auto|].
    apply in_map_iff. exists (y, rest). split; [reflexivity|].
    apply in_re_Y; auto.
Qed.

Lemma in_range_decimal (lo hi c : ascii) :
  char_isdecimal lo = true -> char_isdecimal hi = true ->
  in_range lo hi c = true -> char_isdecimal c = true.
Proof.
  unfold char_isdecimal, in_range. rewrite !andb_true_iff, !N.leb_le. lia.
Qed.

Lemma decimal_not_blank (c : ascii) :
  char_isdecimal c = true -> Ascii.eqb c " " = false.
Proof.
  intros H. destruct (Ascii.eqb_spec c " ") as [->|]; [discriminate | reflexivity].
Qed.

Lemma decimal_not_dot (c : ascii) : char_isdecimal c = true -> c <> dot.
Proof. intros H ->. discriminate. Qed.

Lemma day_text_chars (x : list ascii) :
  day_text x = true ->
  (x <> [] /\ forallb char_isdecimal x = true)
  \/ exists b, x = [" "%char; b] /\ char_isdecimal b = true.
Proof.
  destruct x as [|a [|b [|c x]]]; cbn [day_text]; try discriminate.
  - intros H. left. split; [discriminate|]. cbn.
    now rewrite (in_range_decimal "1" "9" a eq_refl eq_refl H).
  - intros H.
    apply orb_true_iff in H as [H|H];
      [apply orb_true_iff in H as [H|H];
       [apply orb_true_iff in H as [H|H]|]|];
      apply andb_true_iff in H as [Ha Hb].
    + apply Ascii.eqb_eq in Ha. subst a. left. split; [discriminate|]. cbn.
      now rewrite (in_range_decimal "0" "1" b eq_refl eq_refl Hb).
    + left. split; [discriminate|]. cbn.
      now rewrite (in_range_decimal "1" "2" a eq_refl eq_refl Ha), Hb.
    + apply Ascii.eqb_eq in Ha. subst a. left. split; [discriminate|]. cbn.
      now rewrite (in_range_decimal "1" "9" b eq_refl eq_refl Hb).
    + apply Ascii.eqb_eq in Ha. subst a. right. exists b. split; [reflexivity|].
      apply (in_range_decimal "1" "9" b eq_refl eq_refl Hb).
Qed.

Lemma month_text_chars (x : list ascii) :
  month_text x = true -> x <> [] /\ forallb char_isdecimal x = true.
Proof.
  destruct x as [|a [|b [|c x]]]; cbn [month_text]; try discriminate.
  - intros H. split; [discriminate|]. cbn.
    now rewrite (in_range_decimal "1" "9" a eq_refl eq_refl H).
  - intros H.
    apply orb_true_iff in H as [H|H]; apply andb_true_iff in H as [Ha Hb];
      apply Ascii.eqb_eq in Ha; subst a; (split; [discriminate|]); cbn.
    + now rewrite (in_range_decimal "0" "2" b eq_refl eq_refl Hb).
    + now rewrite (in_range_decimal "1" "9" b eq_refl eq_refl Hb).
Qed.

Lemma year_text_chars (x : list ascii) :
  year_text x = true ->
  x <> [] /\ forallb char_isdecimal x = true /\ List.length x = 4%nat.
Proof.
  destruct x as [|a [|b [|c [|d [|e x]]]]]; cbn [year_text]; try discriminate.
  intros H. split; [discriminate|]. split; [|reflexivity].
  apply andb_true_iff in H as [H Hd]. apply andb_true_iff in H as [H Hc].
  apply andb_true_iff in H as [Ha Hb].
  cbn [forallb]. rewrite Ha, Hb, Hc, Hd. reflexivity.
Qed.

Lemma decimals_no_dot (x : list ascii) :
  forallb char_isdecimal x = true -> ~ In dot x.
Proof.
  intros H I. rewrite forallb_forall in H. specialize (H dot I). discriminate.
Qed.

Lemma day_text_no_dot (x : list ascii) : day_text x = true -> ~ In dot x.
Proof.
  intros H. apply day_text_chars in H as [[_ H] | (b & -> & Hb)].
  - apply decimals_no_dot, H.
  - intros [E|[E|[]]]; [discriminate|]. subst b. discriminate.
Qed.

Lemma month_text_no_dot (x : list ascii) : month_text x = true -> ~ In dot x.
Proof. intros H. apply month_text_chars in H as [_ H]. apply decimals_no_dot, H. Qed.

Lemma split_unique {A} (c : A) (x1 x2 t1 t2 : list A) :
  ~ In c x1 -> ~ In c x2 -> x1 ++ c :: t1 = x2 ++ c :: t2 ->
  x1 = x2 /\ t1 = t2.
Proof.
  revert x2. induction x1 as [|a x1 IH]; intros [|b x2] N1 N2 E; cbn in *.
  - inversion E; auto.
  - inversion E; subst. exfalso. apply N2. now left.
  - inversion E; subst. exfalso. apply N1. now left.
  - inversion E; subst. destruct (IH x2) as [-> ->]; auto.
Qed.

Lemma prefix_unique {A} (x1 x2 t1 t2 : list A) :
  List.length x1 = List.length x2 -> x1 ++ t1 = x2 ++ t2 -> x1 = x2 /\ t1 = t2.
Proof.
  revert x2. induction x1 as [|a x1 IH]; intros [|b x2] L E; cbn in *;
    try discriminate; [auto|].
  inversion E; subst. destruct (IH x2) as [-> ->]; auto.
Qed.

Lemma format_regex_matches_unique s g1 r1 g2 r2 :
  In (g1, r1) (format_regex_matches s) -> In (g2, r2) (format_regex_matches s) ->
  (g1, r1) = (g2, r2).
Proof.
  intros H1 H2.
  apply in_format_regex_matches in H1 as (Hd1 & Hm1 & Hy1 & E1).
  apply in_format_regex_matches in H2 as (Hd2 & Hm2 & Hy2 & E2).
  destruct g1 as [d1 m1 y1], g2 as [d2 m2 y2]. cbn [group_d group_m group_Y] in *.
  rewrite E1 in E2.
  apply split_unique in E2 as [-> E2]; [|apply day_text_no_dot; assumption ..].
  apply split_unique in E2 as [-> E2]; [|apply month_text_no_dot; assumption ..].
  apply year_text_chars in Hy1 as (_ & _ & L1).
  apply year_text_chars in Hy2 as (_ & _ & L2).
  apply prefix_unique in E2 as [-> ->]; [reflexivity | congruence].
Qed.

Lemma format_regex_match_iff s g rest :
  format_regex_match s = Some (g, rest) <-> In (g, rest) (format_regex_matches s).
Proof.
  unfold format_regex_match. split.
  - destruct (format_regex_matches s) as [|x l]; cbn; [discriminate|].
    intros H; inversion H; now left.
  - intros H. destruct (format_regex_matches s) as [|[g' r'] l] eqn:E;
      [destruct H|]. cbn. f_equal.
    apply (format_regex_matches_unique s); rewrite E; [now left | exact H].
Qed.

Lemma digits_value_fold (x : list ascii) (acc : Z) :
  forallb char_isdecimal x = true ->
  digits_value acc x
  = Some (fold_left (fun acc c =>
                       if char_isdecimal c
                       then acc * 10 + (Z.of_N (code c) - 48) else acc) x acc).
Proof.
  revert acc. induction x as [|c x IH]; intros acc H; cbn; [reflexivity|].
  cbn in H. apply andb_true_iff in H as [Hc Hx]. rewrite Hc. apply IH, Hx.
Qed.

Lemma py_int_decimals (x : list ascii) :
  x <> [] -> forallb char_isdecimal x = true -> py_int x = inr (number x).
Proof.
  intros Hne H. unfold py_int, number.
  destruct x as [|c x]; [congruence|].
  assert (Hc : char_isdecimal c = true).
  { cbn in H. now apply andb_true_iff in H as [Hc _]. }
  cbn [lstrip]. rewrite (decimal_not_blank c Hc), (digits_value_fold _ _ H).
  reflexivity.
Qed.

Lemma py_int_day (x : list ascii) :
  day_text x = true -> py_int x = inr (number x).
Proof.
  intros H. apply day_text_chars in H as [[Hne H] | (b & -> & Hb)].
  - apply py_int_decimals; assumption.
  - unfold py_int, number. cbn [lstrip Ascii.eqb Bool.eqb].
    rewrite (decimal_not_blank b Hb). cbn. rewrite Hb. reflexivity.
Qed.

Lemma py_int_month (x : list ascii) :
  month_text x = true -> py_int x = inr (number x).
Proof.
  intros H. apply month_text_chars in H as [Hne H]. apply py_int_decimals; assumption.
Qed.

Lemma py_int_year (x : list ascii) :
  year_text x = true -> py_int x = inr (number x).
Proof.
  intros H. apply year_text_chars in H as (Hne & H & _).
  apply py_int_decimals; assumption.
Qed.

(** What [strptime] accepts: a day, a dot, a month, a dot and a year that
    write a date of the calendar. *)
Lemma strptime_dmY_iff (raw : string) (dt : date) :
  strptime_dmY raw = inr dt <->
  exists sd sm sy,
    list_ascii_of_string raw = sd ++ dot :: sm ++ dot :: sy
    /\ day_text sd = true /\ month_text sm = true /\ year_text sy = true
    /\ real_date (number sy) (number sm) (number sd) = true
    /\ dt = mkdate (number sy) (number sm) (number sd).
Proof.
  unfold strptime_dmY. split.
  - destruct (format_regex_match _) as [[g rest]|] eqn:E; [|discriminate].
    destruct rest; [|discriminate].
    apply format_regex_match_iff, in_format_regex_matches in E
      as (Hd & Hm & Hy & E).
    rewrite (py_int_day _ Hd), (py_int_month _ Hm), (py_int_year _ Hy).
    cbn [ebind]. intros H. apply date_new_inv in H as [-> Hr].
    exists (group_d g), (group_m g), (group_Y g).
    rewrite app_nil_r in E. auto 10.
  - intros (sd & sm & sy & E & Hd & Hm & Hy & Hr & ->).
    assert (F : format_regex_match (list_ascii_of_string raw)
                = Some (mkgroups sd sm sy, [])).
    { apply format_regex_match_iff, in_format_regex_matches.
      cbn [group_d group_m group_Y]. rewrite app_nil_r. auto. }
    rewrite F. cbn [group_d group_m group_Y].
    rewrite (py_int_day _ Hd), (py_int_month _ Hm), (py_int_year _ Hy).
    cbn [ebind]. apply date_new_real, Hr.
Qed.

Lemma Birthday_cases (raw : string) :
  Birthday raw = inr (Field__init__ raw)
  \/ Birthday raw = inl (ValueError (Message "Invalid date format. Use DD.MM.YYYY")).
Proof.
  unfold Birthday. destruct (strptime_dmY raw) as [e|d] eqn:E; [|now left].
  destruct (strptime_error _ _ E) as [w ->]. now right.
Qed.

Lemma Birthday_iff (raw : string) :
  Birthday raw = inr (Field__init__ raw) <-> exists dt, strptime_dmY raw = inr dt.
Proof.
  unfold Birthday. destruct (strptime_dmY raw) as [e|d] eqn:E.
  - destruct (strptime_error _ _ E) as [w ->].
    split; [discriminate | intros [dt H]; discriminate].
  - split; eauto.
Qed.




(** * Further properties *)

(** ** Phones of a record *)

Lemma record_eta (r : ContactRecord) :
  mkRecord (name r) (phones r) (birthday r) = r.
Proof. destruct r; reflexivity. Qed.

Lemma filter_absent (p : string) (ps : list Field) :
  phone_absent p ps = true ->
  filter (fun q => negb (Field__str__ q =? p)%string) ps = ps.
Proof.
  unfold phone_absent. induction ps as [|q ps IH]; cbn; [reflexivity|].
  intros H. apply andb_true_iff in H as [Hq Hps]. rewrite Hq, (IH Hps). reflexivity.
Qed.

Lemma absent_filter (p : string) (ps : list Field) :
  phone_absent p (filter (fun q => negb (Field__str__ q =? p)%string) ps) = true.
Proof.
  unfold phone_absent. induction ps as [|q ps IH]; cbn; [reflexivity|].
  destruct (negb (Field__str__ q =? p)%string) eqn:E; cbn; [rewrite E|]; exact IH.
Qed.

(** X1: [remove_phone] never raises and touches the phones only; no phone
    of the value given is left, the other phones stay, and a record
    without such a phone stays as it is. *)
Theorem remove_phone_removes_all (p : string) (r : ContactRecord) :
  outcome (Record_remove_phone p r) = inr tt
  /\ name (final (Record_remove_phone p r)) = name r
  /\ birthday (final (Record_remove_phone p r)) = birthday r
  /\ phone_absent p (phones (final (Record_remove_phone p r))) = true
  /\ (forall q, In q (phones (final (Record_remove_phone p r)))
                <-> In q (phones r) /\ Field__str__ q <> p)
  /\ (phone_absent p (phones r) = true -> final (Record_remove_phone p r) = r).
Proof.
  cbn. repeat split.
  - apply absent_filter.
  - apply filter_In in H. tauto.
  - apply filter_In in H as [_ H]. apply negb_true_iff in H.
    apply String.eqb_neq, H.
  - intros [H1 H2]. apply filter_In. split; [exact H1|].
    apply negb_true_iff, String.eqb_neq, H2.
  - intros H. unfold set_phones. rewrite (filter_absent _ _ H). apply record_eta.
Qed.

Lemma remove_phone_removes_all_witness :
  final (Record_remove_phone "2222222222" Bob) = Bob.
Proof.
  apply (proj2 (proj2 (proj2 (proj2 (proj2
           (remove_phone_removes_all "2222222222" Bob)))))).
  reflexivity.
Defined.

(** X2: a valid phone added to a record that had no phone of that value,
    then removed, leaves the record as it was; so does the phone added
    twice and removed once. *)
Theorem add_then_remove_phone (p : string) (f : Field) (r : ContactRecord) :
  Phone p = inr f ->
  phone_absent p (phones r) = true ->
  final ((Record_add_phone p ;; Record_remove_phone p) r) = r
  /\ final ((Record_add_phone p ;; Record_add_phone p ;; Record_remove_phone p) r)
     = r.
Proof.
  intros Hp Ha.
  assert (Hf : f = Field__init__ p).
  { rewrite Phone_eq in Hp. destruct (_ && _); inversion Hp. reflexivity. }
  subst f.
  assert (E : forall l, filter (fun q => negb (Field__str__ q =? p)%string)
                          (phones r ++ l)
                        = phones r
                          ++ filter (fun q => negb (Field__str__ q =? p)%string) l).
  { intros l. rewrite filter_app, (filter_absent _ _ Ha). reflexivity. }
  split.
  - unfold bind. rewrite Record_add_phone_eq, Hp. cbn.
    unfold set_phones. cbn. rewrite E. cbn. rewrite String.eqb_refl. cbn.
    rewrite app_nil_r. apply record_eta.
  - unfold bind. rewrite Record_add_phone_eq, Hp.
    rewrite Record_add_phone_eq, Hp. cbn.
    unfold set_phones. cbn. rewrite <- app_assoc, E. cbn.
    rewrite String.eqb_refl. cbn. rewrite app_nil_r. apply record_eta.
Qed.

Lemma add_then_remove_phone_witness :
  final ((Record_add_phone "2222222222" ;; Record_remove_phone "2222222222") Bob)
  = Bob.
Proof.
  apply (proj1 (add_then_remove_phone "2222222222" (Field__init__ "2222222222")
                  Bob eq_refl eq_refl)).
Defined.

(** ** Lookups in the book *)

Lemma dict_set_get_same {V} (d : list (string * V)) k v :
  dict_get k d = Some v -> dict_set k v d = d.
Proof.
  induction d as [|[k' v'] r IH]; cbn; [discriminate|].
  destruct (k' =? k)%string.
  - intros H; inversion H; reflexivity.
  - intros H. rewrite (IH H). reflexivity.
Qed.

Lemma dict_get_del_other {V} (d : list (string * V)) k k1 :
  k1 <> k -> dict_get k1 (dict_del k d) = dict_get k1 d.
Proof.
  intros Hne. induction d as [|[k' v'] r IH]; cbn; [reflexivity|].
  destruct (String.eqb_spec k' k) as [->|Hk]; cbn.
  - destruct (String.eqb_spec k k1); [congruence | reflexivity].
  - rewrite IH. reflexivity.
Qed.

Lemma dict_get_del_same {V} (d : list (string * V)) k :
  NoDup (dict_keys d) -> dict_get k (dict_del k d) = None.
Proof.
  unfold dict_keys. induction d as [|[k' v'] r IH]; cbn; [reflexivity|].
  intros H. inversion H as [|? ? Hn Hr]; subst.
  destruct (String.eqb_spec k' k) as [->|Hk]; cbn.
  - apply dict_get_keys, Hn.
  - destruct (String.eqb_spec k' k); [congruence | auto].
Qed.

Lemma dict_del_absent {V} (d : list (string * V)) k :
  dict_get k d = None -> dict_del k d = d.
Proof.
  induction d as [|[k' v'] r IH]; cbn; [reflexivity|].
  destruct (k' =? k)%string; [discriminate|].
  intros H. rewrite (IH H). reflexivity.
Qed.

Lemma dict_del_last {V} (d : list (string * V)) k v :
  dict_get k d = None -> dict_del k (d ++ [(k, v)]) = d.
Proof.
  induction d as [|[k' v'] r IH]; cbn.
  - now rewrite String.eqb_refl.
  - destruct (k' =? k)%string; [discriminate|].
    intros H. rewrite (IH H). reflexivity.
Qed.

(** X3: a record added to the book is the one [find] returns under its
    name; the other names find what they found; the name is new at the
    end of the book, or stays where it was. *)
Theorem add_record_then_find (record : ContactRecord) (book : AddressBook) :
  outcome (AddressBook_find (value (name record))
             (final (AddressBook_add_record record book)))
  = inr (Some record)
  /\ (forall n, n <> value (name record) ->
        outcome (AddressBook_find n (final (AddressBook_add_record record book)))
        = outcome (AddressBook_find n book))
  /\ dict_keys (final (AddressBook_add_record record book))
     = if dict_contains (value (name record)) book
       then dict_keys book
       else dict_keys book ++ [value (name record)].
Proof.
  cbn. repeat split.
  - now rewrite dict_get_set_same.
  - intros n Hn. now rewrite dict_get_set_other.
  - apply dict_set_keys.
Qed.

Lemma add_record_then_find_witness :
  outcome (AddressBook_find "Ann" (final (AddressBook_add_record Bob
                                            [("Ann", Record__init__ "Ann")])))
  = inr (Some (Record__init__ "Ann")).
Proof.
  rewrite (proj1 (proj2 (add_record_then_find Bob [("Ann", Record__init__ "Ann")]))
             "Ann").
  - reflexivity.
  - discriminate.
Defined.

(** X4: in a book without a key twice, a name deleted is not found any
    more and the other names find what they found; deleting a name that
    is not in the book changes nothing. *)
Theorem delete_then_find (n : string) (book : AddressBook) :
  NoDup (dict_keys book) ->
  outcome (AddressBook_find n (final (AddressBook_delete n book))) = inr None
  /\ (forall n', n' <> n ->
        outcome (AddressBook_find n' (final (AddressBook_delete n book)))
        = outcome (AddressBook_find n' book))
  /\ (dict_get n book = None -> AddressBook_delete n book = (inr tt, book)).
Proof.
  intros Hk. unfold AddressBook_delete, bind, get, dict_contains.
  destruct (dict_get n book) eqn:E; cbn.
  - repeat split.
    + now rewrite dict_get_del_same.
    + intros n' Hn'. now rewrite dict_get_del_other.
    + discriminate.
  - repeat split. now rewrite E.
Qed.

Lemma delete_then_find_witness :
  outcome (AddressBook_find "Bob"
             (final (AddressBook_delete "Bob"
                       [("Ann", Record__init__ "Ann"); ("Bob", Bob)])))
  = inr None.
Proof.
  apply (proj1 (delete_then_find "Bob"
                  [("Ann", Record__init__ "Ann"); ("Bob", Bob)]
                  ltac:(repeat constructor; cbn; intuition discriminate))).
Defined.

(** X5: a record added under a name the book did not have, then deleted,
    leaves the book as it was. *)
Theorem add_record_then_delete (record : ContactRecord) (book : AddressBook) :
  dict_get (value (name record)) book = None ->
  final ((AddressBook_add_record record ;;
          AddressBook_delete (value (name record))) book)
  = book.
Proof.
  intros H. unfold bind, AddressBook_add_record, AddressBook_delete, bind, get, put.
  cbn. unfold dict_contains. rewrite dict_get_set_same. cbn.
  rewrite (dict_set_absent _ _ _ H). apply dict_del_last, H.
Qed.

Lemma add_record_then_delete_witness :
  final ((AddressBook_add_record Bob ;; AddressBook_delete "Bob")
           [("Ann", Record__init__ "Ann")])
  = [("Ann", Record__init__ "Ann")].
Proof.
  apply (add_record_then_delete Bob [("Ann", Record__init__ "Ann")]).
  reflexivity.
Defined.

(** ** The pattern of the handlers *)

Lemma in_re_repeat (n : nat) s x r :
  In (x, r) (re_repeat n re_d_class s) ->
  s = x ++ r /\ List.length x = n /\ forallb char_isdecimal x = true.
Proof.
  revert s x r. induction n as [|n IH]; intros s x r; cbn [re_repeat].
  - intros [H|[]]. inversion H; subst. auto.
  - intros H. apply in_re_seq in H as (x1 & r1 & x2 & H1 & H2 & ->).
    apply in_re_class in H1 as (c & Hc & -> & ->).
    apply IH in H2 as (-> & <- & Hx). cbn. rewrite Hc, Hx. auto.
Qed.

Lemma string_of_list_app (a b : list ascii) :
  string_of_list_ascii (a ++ b)
  = (string_of_list_ascii a ++ string_of_list_ascii b)%string.
Proof. induction a as [|c a IH]; cbn; [reflexivity | now rewrite IH]. Qed.

Lemma list_ascii_app (a b : string) :
  list_ascii_of_string (a ++ b) = list_ascii_of_string a ++ list_ascii_of_string b.
Proof. induction a as [|c a IH]; cbn; [reflexivity | now rewrite IH]. Qed.

Lemma append_empty_r (s : string) : (s ++ "")%string = s.
Proof. induction s as [|c s IH]; cbn; [reflexivity | now rewrite IH]. Qed.

Lemma length_append (a b : string) :
  String.length (a ++ b) = (String.length a + String.length b)%nat.
Proof. induction a as [|c a IH]; cbn; [reflexivity | now rewrite IH]. Qed.

Lemma str_all_append (p : ascii -> bool) (a b : string) :
  str_all p (a ++ b) = str_all p a && str_all p b.
Proof.
  induction a as [|c a IH]; cbn; [reflexivity|].
  rewrite IH. now rewrite andb_assoc.
Qed.

Lemma decimal10_list (x : list ascii) :
  List.length x = 10%nat -> forallb char_isdecimal x = true ->
  decimal10 (string_of_list_ascii x) = true.
Proof.
  intros Hl Hx. unfold decimal10, len.
  rewrite str_all_forallb, list_ascii_of_string_of_list_ascii, Hx.
  rewrite <- length_list_ascii, list_ascii_of_string_of_list_ascii, Hl.
  reflexivity.
Qed.

Lemma decimal10_line_break (t : string) :
  decimal10 t = true -> decimal10 (t ++ line_break) = false.
Proof.
  unfold decimal10, len. intros H. apply andb_true_iff in H as [Hl _].
  apply Z.eqb_eq in Hl. rewrite length_append. cbn [line_break String.length].
  apply andb_false_iff. left. apply Z.eqb_neq. lia.
Qed.

Lemma PHONE_PATTERN_shape (s : string) :
  PHONE_PATTERN_match s = true ->
  decimal10 s = true
  \/ exists t, decimal10 t = true /\ s = (t ++ line_break)%string.
Proof.
  unfold PHONE_PATTERN_match. intros H.
  apply existsb_exists in H as ([x r] & Hin & Hr). cbn [snd] in Hr.
  apply in_re_repeat in Hin as (E & Hl & Hx).
  apply (f_equal string_of_list_ascii) in E.
  rewrite string_of_list_ascii_of_string, string_of_list_app in E.
  destruct r as [|c [|c' r]]; [| |discriminate].
  - left. rewrite E. cbn. rewrite append_empty_r. now apply decimal10_list.
  - right. apply Ascii.eqb_eq in Hr. subst c.
    exists (string_of_list_ascii x). split; [now apply decimal10_list | exact E].
Qed.

(** X6: the pattern of the handlers accepts the strings of 10 decimal
    digits and those followed by one line break, and no other string. *)
Theorem PHONE_PATTERN_accepts (s : string) :
  PHONE_PATTERN_match s = true <->
  decimal10 s = true
  \/ exists t, decimal10 t = true /\ s = (t ++ line_break)%string.
Proof.
  split; [apply PHONE_PATTERN_shape|].
  intros [H | (t & Ht & ->)]; [apply PHONE_PATTERN_decimal10, H|].
  unfold decimal10, len in Ht. apply andb_true_iff in Ht as [Hl Hd].
  apply Z.eqb_eq in Hl. rewrite str_all_forallb in Hd.
  unfold PHONE_PATTERN_match. apply existsb_exists.
  exists (list_ascii_of_string t, [newline]). split; [|reflexivity].
  pose proof (re_repeat_digits _ [newline] Hd) as H.
  rewrite length_list_ascii in H.
  replace 10%nat with (String.length t) by lia.
  rewrite list_ascii_app. exact H.
Qed.

Lemma PHONE_PATTERN_accepts_witness :
  PHONE_PATTERN_match "0123456789" = true.
Proof.
  apply (proj2 (PHONE_PATTERN_accepts "0123456789")). left. reflexivity.
Defined.

Lemma Phone_not_decimal10 (phone : string) :
  PHONE_PATTERN_match phone = true -> decimal10 phone = false ->
  Phone phone = inl (ValueError (Message "Phone number must contain 10 digits.")).
Proof.
  intros Hm Hd. apply PHONE_PATTERN_shape in Hm as [Hm | (t & Ht & ->)];
    [congruence|].
  rewrite Phone_eq. unfold decimal10, len in Ht.
  apply andb_true_iff in Ht as [Hl _]. apply Z.eqb_eq in Hl.
  unfold len. rewrite length_append. cbn [line_break String.length].
  replace (_ =? 10) with false; [reflexivity|]. symmetry. apply Z.eqb_neq. lia.
Qed.

(** ** The handlers *)

Lemma final_input_error {S} (func : M S string) (s : S) :
  final (input_error func s) = final (func s).
Proof.
  unfold input_error. destruct (func s) as [[[[t|w]|k|]|r] s']; reflexivity.
Qed.

(** What [add_contact] does with a name and a phone. *)
Lemma add_contact_cases (book : AddressBook) (n phone : string) :
  add_contact [n; phone] book =
  if decimal10 phone then
    match dict_get n book with
    | None =>
        (inr (Text "Contact added."),
         book ++ [(n, mkRecord (Name n) [Field__init__ phone] None)])
    | Some r =>
        (inr (Text "Phone added."),
         dict_set n (set_phones (phones r ++ [Field__init__ phone]) r) book)
    end
  else
    (inr (Text (if PHONE_PATTERN_match phone
                then "Phone number must contain 10 digits."
                else "Invalid phone number format. Please enter a 10-digit number.")),
     book).
Proof.
  destruct (decimal10 phone) eqn:Hd.
  - destruct (dict_get n book) eqn:Hn.
    + apply add_contact_present; assumption.
    + apply add_contact_absent; assumption.
  - unfold add_contact, input_error, add_contact_body, bind, unpack2, lift, ret, get.
    cbn [fst snd].
    destruct (PHONE_PATTERN_match phone) eqn:Hm; cbn [negb]; [|reflexivity].
    pose proof (Phone_not_decimal10 _ Hm Hd) as Hp.
    unfold dict_contains. destruct (dict_get n book) eqn:Hn; cbn [negb].
    + unfold on_record. rewrite Hn, Record_add_phone_eq, Hp.
      rewrite (dict_set_get_same _ _ _ Hn). reflexivity.
    + unfold on_local. rewrite Record_add_phone_eq, Hp. reflexivity.
Qed.

(** X7: with a phone that is not of 10 decimal digits, [add_contact]
    leaves the book as it was and answers with the message of the
    pattern, or with that of [Phone] for 10 digits and a line break. *)
Theorem add_contact_refuses (book : AddressBook) (n phone : string) :
  decimal10 phone = false ->
  final (add_contact [n; phone] book) = book
  /\ outcome (add_contact [n; phone] book)
     = inr (Text (if PHONE_PATTERN_match phone
                  then "Phone number must contain 10 digits."
                  else "Invalid phone number format. Please enter a 10-digit number.")).
Proof.
  intros H. rewrite add_contact_cases, H. split; reflexivity.
Qed.

Lemma add_contact_refuses_witness :
  final (add_contact ["Bob"; "12345"] [("Bob", Bob)]) = [("Bob", Bob)]
  /\ outcome (add_contact ["Bob"; "12345"] [("Bob", Bob)])
     = inr (Text "Invalid phone number format. Please enter a 10-digit number.").
Proof.
  apply (add_contact_refuses [("Bob", Bob)] "Bob" "12345"). reflexivity.
Defined.

(** X8: a handler called with the wrong number of arguments answers with
    the text of the interpreter's error and leaves the book as it was:
    the unpacking error for [add_contact], [change_contact] and
    [add_birthday], the index error for [get_phone] and [show_birthday]
    without a name. *)
Theorem handlers_wrong_arity (args : list string) (book : AddressBook) :
  (List.length args <> 2%nat ->
   add_contact args book = (inr (InterpreterText UnpackArity), book)
   /\ add_birthday args book = (inr (InterpreterText UnpackArity), book))
  /\ (List.length args <> 3%nat ->
      change_contact args book = (inr (InterpreterText UnpackArity), book))
  /\ get_phone [] book = (inr (ErrorText IndexError), book)
  /\ show_birthday [] book = (inr (ErrorText IndexError), book).
Proof.
  split; [|split; [|split; reflexivity]].
  - intros H.
    destruct args as [|a [|b [|c l]]]; cbn in H; try (split; reflexivity).
    congruence.
  - intros H.
    destruct args as [|a [|b [|c [|d l]]]]; cbn in H; try reflexivity.
    congruence.
Qed.

Lemma handlers_wrong_arity_witness :
  add_contact ["Bob"] [("Bob", Bob)]
  = (inr (InterpreterText UnpackArity), [("Bob", Bob)]).
Proof.
  apply (proj1 (handlers_wrong_arity ["Bob"] [("Bob", Bob)])). discriminate.
Defined.

Lemma Record_edit_phone_eq (old_phone new_phone : string) (r : ContactRecord) :
  Record_edit_phone old_phone new_phone r = (inr tt, r).
Proof.
  unfold Record_edit_phone, bind, get. rewrite str_in_false. reflexivity.
Qed.

Lemma change_contact_frame (args : list string) (book : AddressBook) :
  final (change_contact args book) = book.
Proof.
  unfold change_contact. rewrite final_input_error.
  destruct args as [|n [|o [|p [|d l]]]]; try reflexivity.
  unfold change_contact_body, bind, unpack3, lift, ret, get. cbn [fst snd].
  destruct (PHONE_PATTERN_match p); cbn [negb]; [|reflexivity].
  unfold dict_contains. destruct (dict_get n book) eqn:Hn; [|reflexivity].
  unfold on_record. rewrite Hn, Record_edit_phone_eq. cbn.
  apply dict_set_get_same, Hn.
Qed.

(** X9: [change_contact] never changes the book, whatever its arguments;
    for a name of the book and a new phone that the pattern accepts it
    answers that the contact is updated. *)
Theorem change_contact_changes_nothing (args : list string) (book : AddressBook) :
  final (change_contact args book) = book
  /\ (forall n old_phone new_phone,
        args = [n; old_phone; new_phone] ->
        dict_contains n book = true ->
        PHONE_PATTERN_match new_phone = true ->
        outcome (change_contact args book) = inr (Text "Contact updated.")).
Proof.
  split; [apply change_contact_frame|].
  intros n o p -> Hn Hp.
  unfold change_contact, input_error, change_contact_body, bind, unpack3,
    lift, ret, get. cbn [fst snd]. rewrite Hp. cbn [negb]. rewrite Hn.
  unfold dict_contains in Hn. unfold on_record.
  destruct (dict_get n book); [|discriminate].
  rewrite Record_edit_phone_eq. reflexivity.
Qed.

Lemma change_contact_changes_nothing_witness :
  outcome (change_contact ["Bob"; "1111111111"; "2222222222"] [("Bob", Bob)])
  = inr (Text "Contact updated.").
Proof.
  apply (proj2 (change_contact_changes_nothing
                  ["Bob"; "1111111111"; "2222222222"] [("Bob", Bob)])
           "Bob" "1111111111" "2222222222"); reflexivity.
Defined.

Lemma add_birthday_cases (book : AddressBook) (n b : string) :
  add_birthday [n; b] book =
  match dict_get n book with
  | None => (inr (Text "Contact not found."), book)
  | Some r =>
      match Birthday b with
      | inr v =>
          (inr (Text "Birthday added."), dict_set n (set_birthday (Some v) r) book)
      | inl _ => (inr (Text "Invalid date format. Use DD.MM.YYYY"), book)
      end
  end.
Proof.
  unfold add_birthday, input_error, add_birthday_body, bind, unpack2, lift, ret, get.
  cbn [fst snd]. unfold dict_contains.
  destruct (dict_get n book) eqn:Hn; [|reflexivity].
  unfold on_record. rewrite Hn, Record_add_birthday_eq.
  destruct (Birthday_cases b) as [E|E]; rewrite E; [reflexivity|].
  rewrite (dict_set_get_same _ _ _ Hn). reflexivity.
Qed.

(** X10: [add_birthday] answers that the contact is not found, and
    changes nothing, for a name that is not in the book; for a name of the
    book and a text that [Birthday] accepts it sets that birthday in the
    record, whose name, phones and place stay, as do the other records;
    for a text that [Birthday] refuses it answers with the message of
    [Birthday] and changes nothing. *)
Theorem add_birthday_sets (book : AddressBook) (n b : string) :
  (dict_get n book = None ->
   add_birthday [n; b] book = (inr (Text "Contact not found."), book))
  /\ (forall r, dict_get n book = Some r ->
      Birthday b = inr (Field__init__ b) ->
      outcome (add_birthday [n; b] book) = inr (Text "Birthday added.")
      /\ dict_get n (final (add_birthday [n; b] book))
         = Some (mkRecord (name r) (phones r) (Some (Field__init__ b)))
      /\ dict_keys (final (add_birthday [n; b] book)) = dict_keys book
      /\ forall n', n' <> n ->
           dict_get n' (final (add_birthday [n; b] book)) = dict_get n' book)
  /\ (forall r, dict_get n book = Some r ->
      Birthday b <> inr (Field__init__ b) ->
      add_birthday [n; b] book
      = (inr (Text "Invalid date format. Use DD.MM.YYYY"), book)).
Proof.
  rewrite add_birthday_cases. split; [|split].
  - intros ->. reflexivity.
  - intros r Hr Hb. rewrite Hr, Hb. cbn [outcome final fst snd]. repeat split.
    + apply dict_get_set_same.
    + rewrite dict_set_keys. unfold dict_contains. now rewrite Hr.
    + intros n' Hn'. apply dict_get_set_other, Hn'.
  - intros r -> Hb. destruct (Birthday_cases b) as [E|E]; [contradiction|].
    rewrite E. reflexivity.
Qed.

Lemma add_birthday_sets_witness :
  dict_get "Bob" (final (add_birthday ["Bob"; "01.02.2003"] [("Bob", Bob)]))
  = Some (mkRecord (Name "Bob") [Field__init__ "1111111111"]
            (Some (Field__init__ "01.02.2003")))
  /\ add_birthday ["Bob"; "31.02.2003"] [("Bob", Bob)]
     = (inr (Text "Invalid date format. Use DD.MM.YYYY"), [("Bob", Bob)])
  /\ add_birthday ["Ann"; "01.02.2003"] [("Bob", Bob)]
     = (inr (Text "Contact not found."), [("Bob", Bob)]).
Proof.
  split; [|split].
  - apply (proj1 (proj2 (add_birthday_sets [("Bob", Bob)] "Bob" "01.02.2003"))
             Bob eq_refl eq_refl).
  - apply (proj2 (proj2 (add_birthday_sets [("Bob", Bob)] "Bob" "31.02.2003"))
             Bob eq_refl).
    discriminate.
  - apply (proj1 (add_birthday_sets [("Bob", Bob)] "Ann" "01.02.2003")).
    reflexivity.
Defined.

Lemma show_birthday_cases (book : AddressBook) (n : string) (rest : list string) :
  show_birthday (n :: rest) book =
  (inr (Text match dict_get n book with
             | None => "Contact not found."
             | Some r =>
                 match birthday r with
                 | Some v => "Birthday for " ++ n ++ ": " ++ Field__str__ v
                 | None => "Birthday not specified."
                 end
             end%string),
   book).
Proof.
  unfold show_birthday, input_error, show_birthday_body, bind, list_first, lift,
    ret, get. unfold dict_contains.
  destruct (dict_get n book) eqn:Hn; [|reflexivity].
  unfold on_record. rewrite Hn.
  destruct (birthday c); cbn -[dict_set String.append];
    rewrite (dict_set_get_same _ _ _ Hn); reflexivity.
Qed.

(** X11: after [add_birthday] has set a birthday for a name, [show_birthday]
    answers with that name and the text as it was given, and changes
    nothing; for a record without a birthday it answers that none is
    specified. *)
Theorem show_birthday_after_add (book : AddressBook) (n b : string) (r : ContactRecord) :
  dict_get n book = Some r ->
  (Birthday b = inr (Field__init__ b) ->
   show_birthday [n] (final (add_birthday [n; b] book))
   = (inr (Text ("Birthday for " ++ n ++ ": " ++ b)),
      final (add_birthday [n; b] book)))
  /\ (birthday r = None ->
      show_birthday [n] book = (inr (Text "Birthday not specified."), book)).
Proof.
  intros Hr. split.
  - intros Hb. rewrite show_birthday_cases, add_birthday_cases, Hr, Hb.
    cbn [final snd]. rewrite dict_get_set_same. reflexivity.
  - intros Hn. rewrite show_birthday_cases, Hr, Hn. reflexivity.
Qed.

Lemma show_birthday_after_add_witness :
  show_birthday ["Bob"] (final (add_birthday ["Bob"; "1.2.2003"] [("Bob", Bob)]))
  = (inr (Text "Birthday for Bob: 1.2.2003"),
     final (add_birthday ["Bob"; "1.2.2003"] [("Bob", Bob)])).
Proof.
  apply (proj1 (show_birthday_after_add [("Bob", Bob)] "Bob" "1.2.2003" Bob
                  eq_refl)).
  reflexivity.
Defined.

Lemma get_phone_cases (book : AddressBook) (n : string) (rest : list string) :
  get_phone (n :: rest) book =
  (inr match dict_get n book with
       | None => Text "Contact not found."
       | Some r =>
           match phones r with
           | p :: _ => Text ("Phone for " ++ n ++ ": " ++ Field__str__ p)
           | [] => ErrorText IndexError
           end
       end,
   book).
Proof.
  unfold get_phone, input_error, get_phone_body, bind, list_first, lift,
    ret, get. unfold dict_contains.
  destruct (dict_get n book) eqn:Hn; [|reflexivity].
  unfold on_record. rewrite Hn.
  destruct (phones c); cbn -[dict_set String.append];
    rewrite (dict_set_get_same _ _ _ Hn); reflexivity.
Qed.

Lemma dict_get_app_last {V} (d : list (string * V)) k v :
  dict_get k d = None -> dict_get k (d ++ [(k, v)]) = Some v.
Proof.
  intros H. rewrite <- (dict_set_absent _ _ _ H). apply dict_get_set_same.
Qed.

(** X12: [get_phone] answers with the phone that was added first: the
    phone given when [add_contact] made the record, and for a record that
    has phones the same phone before and after [add_contact] adds one. *)
Theorem get_phone_first_added (book : AddressBook) (n p : string) :
  decimal10 p = true ->
  (dict_get n book = None ->
   outcome (get_phone [n] (final (add_contact [n; p] book)))
   = inr (Text ("Phone for " ++ n ++ ": " ++ p)))
  /\ (forall r q qs,
        dict_get n book = Some r -> phones r = q :: qs ->
        outcome (get_phone [n] book)
        = inr (Text ("Phone for " ++ n ++ ": " ++ Field__str__ q))
        /\ outcome (get_phone [n] (final (add_contact [n; p] book)))
           = inr (Text ("Phone for " ++ n ++ ": " ++ Field__str__ q))).
Proof.
  intros Hp. split.
  - intros Hn. rewrite get_phone_cases, add_contact_cases, Hp, Hn.
    cbn [final snd]. rewrite (dict_get_app_last _ _ _ Hn). reflexivity.
  - intros r q qs Hr Hq. rewrite !get_phone_cases, add_contact_cases, Hp, Hr.
    cbn [final snd outcome fst]. rewrite dict_get_set_same. cbn [set_phones phones].
    rewrite Hq. split; reflexivity.
Qed.

Lemma get_phone_first_added_witness :
  outcome (get_phone ["Bob"] (final (add_contact ["Bob"; "2222222222"] [("Bob", Bob)])))
  = inr (Text "Phone for Bob: 1111111111")
  /\ outcome (get_phone ["Ann"] (final (add_contact ["Ann"; "2222222222"] [("Bob", Bob)])))
     = inr (Text "Phone for Ann: 2222222222").
Proof.
  split.
  - apply (proj2 (get_phone_first_added [("Bob", Bob)] "Bob" "2222222222" eq_refl)
             Bob (Field__init__ "1111111111") []); reflexivity.
  - apply (proj1 (get_phone_first_added [("Bob", Bob)] "Ann" "2222222222" eq_refl)).
    reflexivity.
Defined.

(** ** Books that the handlers build *)

Lemma book_ok_set (book : AddressBook) (n : string) (r : ContactRecord) :
  book_ok book -> value (name r) = n -> record_ok r ->
  book_ok (dict_set n r book).
Proof.
  intros [Hinv Hrec] Hn Hr. split.
  - subst n. apply (add_record_inv book r Hinv).
  - intros k x I. apply dict_set_In in I as [I|E]; [eauto|].
    inversion E; subst. exact Hr.
Qed.

Lemma book_ok_get (book : AddressBook) (n : string) (r : ContactRecord) :
  book_ok book -> dict_get n book = Some r ->
  value (name r) = n /\ record_ok r.
Proof.
  intros [[Hk _] Hrec] H. apply dict_get_In in H.
  split; [symmetry; apply Hk, H | eapply Hrec, H].
Qed.

Lemma add_contact_ok (args : list string) (book : AddressBook) :
  book_ok book -> book_ok (final (add_contact args book)).
Proof.
  intros Hok.
  destruct args as [|n [|phone [|c l]]]; try exact Hok.
  rewrite add_contact_cases.
  destruct (decimal10 phone) eqn:Hd; [|exact Hok].
  destruct (dict_get n book) as [r|] eqn:Hn; cbn [final snd].
  - destruct (book_ok_get _ _ _ Hok Hn) as [Hname (Hne & Hall & Hb)].
    apply book_ok_set; [exact Hok | exact Hname |].
    split; [|split]; cbn [set_phones phones birthday].
    + destruct (phones r); discriminate.
    + apply Forall_app. split; [exact Hall|]. constructor; [exact Hd | constructor].
    + exact Hb.
  - rewrite <- (dict_set_absent _ _ _ Hn).
    apply book_ok_set; [exact Hok | reflexivity |].
    split; [|split]; cbn.
    + discriminate.
    + constructor; [exact Hd | constructor].
    + discriminate.
Qed.

Lemma add_birthday_ok (args : list string) (book : AddressBook) :
  book_ok book -> book_ok (final (add_birthday args book)).
Proof.
  intros Hok.
  destruct args as [|n [|b [|c l]]]; try exact Hok.
  rewrite add_birthday_cases.
  destruct (dict_get n book) as [r|] eqn:Hn; [|exact Hok].
  destruct (Birthday b) as [e|v] eqn:Hb; [exact Hok|]. cbn [final snd].
  destruct (book_ok_get _ _ _ Hok Hn) as [Hname (Hne & Hall & _)].
  apply book_ok_set; [exact Hok | exact Hname |].
  split; [|split]; cbn [set_birthday phones birthday]; [exact Hne | exact Hall |].
  intros b' E. inversion E; subst b'.
  destruct (Birthday_cases b) as [E'|E']; [|congruence].
  rewrite Hb in E'. inversion E'; subst v.
  apply Birthday_iff. exact Hb.
Qed.

Lemma birthdays_frame (today : date) (book : AddressBook) :
  final (birthdays today book) = book.
Proof.
  unfold birthdays. rewrite final_input_error.
  unfold birthdays_body, bind, AddressBook_get_upcoming_birthdays, bind, get.
  pose proof (for_each_frame (upcoming_body today) (dict_values book)
                (fun acc x s => upcoming_body_frame today acc x s) [] book) as H.
  destruct (for_each _ _ _ _) as [[e|l] s]; cbn in H; subst; [reflexivity|].
  destruct l; reflexivity.
Qed.

Lemma get_phone_frame (book : AddressBook) (args : list string) :
  final (get_phone args book) = book.
Proof. destruct args; [reflexivity | now rewrite get_phone_cases]. Qed.

Lemma show_birthday_frame (book : AddressBook) (args : list string) :
  final (show_birthday args book) = book.
Proof. destruct args; [reflexivity | now rewrite show_birthday_cases]. Qed.

Lemma show_all_contacts_frame (book : AddressBook) :
  final (show_all_contacts book) = book.
Proof. destruct book; reflexivity. Qed.

Lemma run_command_ok (book : AddressBook) (c : command) :
  book_ok book -> book_ok (run_command book c).
Proof.
  intros Hok.
  destruct c as [args|args|args| |args|args|today]; cbn [run_command].
  - apply add_contact_ok, Hok.
  - now rewrite change_contact_frame.
  - now rewrite get_phone_frame.
  - now rewrite show_all_contacts_frame.
  - apply add_birthday_ok, Hok.
  - now rewrite show_birthday_frame.
  - now rewrite birthdays_frame.
Qed.

Lemma empty_book_ok : book_ok AddressBook__init__.
Proof. split; [split; [intros k r [] | constructor] | intros k r []]. Qed.

Lemma fold_commands_ok (cs : list command) (book : AddressBook) :
  book_ok book -> book_ok (fold_left run_command cs book).
Proof.
  revert book. induction cs as [|c cs IH]; intros book H; cbn; [exact H|].
  apply IH, run_command_ok, H.
Qed.

(** X13: every book that the command handlers build from the empty book,
    whatever their arguments, keeps each record under its own name, no
    name twice, and in each record at least one phone, phones of 10
    decimal digits only, and a birthday, if set, that [strptime] reads. *)
Theorem handlers_keep_book_ok (cs : list command) : book_ok (run_commands cs).
Proof.
  unfold run_commands. apply fold_commands_ok. exact empty_book_ok.
Qed.

Lemma get_phone_ok (book : AddressBook) (n : string) :
  book_ok book -> dict_contains n book = true ->
  exists p,
    decimal10 p = true
    /\ get_phone [n] book = (inr (Text ("Phone for " ++ n ++ ": " ++ p)), book).
Proof.
  intros Hok Hn. unfold dict_contains in Hn.
  destruct (dict_get n book) as [r|] eqn:Hr; [|discriminate].
  destruct (book_ok_get _ _ _ Hok Hr) as [_ (Hne & Hall & _)].
  rewrite get_phone_cases, Hr.
  destruct (phones r) as [|p ps]; [congruence|].
  exists (value p). inversion Hall; subst. auto.
Qed.

(** X14: in a book that the command handlers built, [get_phone] answers
    for every name of the book with a phone of 10 decimal digits, and so
    never with the index error of a record without phones. *)
Theorem get_phone_on_built_book (cs : list command) (n : string) :
  dict_contains n (run_commands cs) = true ->
  exists p,
    decimal10 p = true
    /\ get_phone [n] (run_commands cs)
       = (inr (Text ("Phone for " ++ n ++ ": " ++ p)), run_commands cs).
Proof.
  apply get_phone_ok. unfold run_commands.
  apply fold_commands_ok. exact empty_book_ok.
Qed.

Lemma get_phone_on_built_book_witness :
  exists p,
    decimal10 p = true
    /\ get_phone ["Bob"]
         (run_commands [CmdAdd ["Bob"; "1111111111"]; CmdAdd ["Bob"; "22"];
                        CmdChange ["Bob"; "1111111111"; "3333333333"]])
       = (inr (Text ("Phone for " ++ "Bob" ++ ": " ++ p)),
          run_commands [CmdAdd ["Bob"; "1111111111"]; CmdAdd ["Bob"; "22"];
                        CmdChange ["Bob"; "1111111111"; "3333333333"]]).
Proof.
  apply (get_phone_on_built_book
           [CmdAdd ["Bob"; "1111111111"]; CmdAdd ["Bob"; "22"];
            CmdChange ["Bob"; "1111111111"; "3333333333"]] "Bob").
  reflexivity.
Defined.

(** ** More on the birthday query *)

(** X15: the handlers that only ask leave the book as it was. *)
Theorem asking_leaves_book (book : AddressBook) (args : list string) (today : date) :
  final (get_phone args book) = book
  /\ final (show_birthday args book) = book
  /\ final (show_all_contacts book) = book
  /\ final (birthdays today book) = book.
Proof.
  split; [apply get_phone_frame|].
  split; [apply show_birthday_frame|].
  split; [apply show_all_contacts_frame | apply birthdays_frame].
Qed.

Lemma real_date_other_year (y y' m d : Z) :
  real_date y m d = true -> 1 <= y' <= 9999 ->
  negb ((m =? 2) && (d =? 29)) = true ->
  real_date y' m d = true.
Proof.
  unfold real_date, MINYEAR, MAXYEAR. intros H Hy' Hl.
  apply andb_true_iff in H as [H Hd]. apply andb_true_iff in H as [_ Hm].
  apply andb_true_iff in Hd as [Hd1 Hd2].
  rewrite Hm, Hd1. cbn [andb].
  replace (1 <=? y') with true by (symmetry; apply Z.leb_le; lia).
  replace (y' <=? 9999) with true by (symmetry; apply Z.leb_le; lia).
  cbn [andb]. apply Z.leb_le. apply Z.leb_le in Hd2.
  unfold days_in_month in *.
  destruct (m =? 2) eqn:Em; cbn [andb] in *; [|exact Hd2].
  apply Z.eqb_eq in Em. subst m. cbn [DAYS_IN_MONTH] in *.
  apply negb_true_iff, Z.eqb_neq in Hl.
  destruct (is_leap y), (is_leap y'); lia.
Qed.

Lemma strptime_is_date (s : string) (d : date) :
  strptime_dmY s = inr d -> is_date d = true.
Proof.
  intros H. apply strptime_dmY_iff in H as (sd & sm & sy & _ & _ & _ & _ & Hr & ->).
  exact Hr.
Qed.

Lemma occurrence_exists_plain (today bd : date) :
  is_date today = true -> year today < 9999 -> is_date bd = true ->
  negb ((month bd =? 2) && (day bd =? 29)) = true ->
  occurrence_exists today bd = true.
Proof.
  intros Ht Hy Hb Hl. pose proof (is_date_spec _ Ht) as (Hyt & _ & _).
  unfold occurrence_exists, occurrence.
  assert (H1 : is_date (this_year_occurrence today bd) = true).
  { apply (real_date_other_year (year bd));
      [exact Hb | cbn [this_year_occurrence next_year_occurrence year]; lia
      | exact Hl]. }
  assert (H2 : is_date (next_year_occurrence today bd) = true).
  { apply (real_date_other_year (year bd));
      [exact Hb | cbn [this_year_occurrence next_year_occurrence year]; lia
      | exact Hl]. }
  rewrite H1. destruct (date_lt _ today); assumption.
Qed.

Lemma no_leap_day_ready (today : date) (records : list ContactRecord) :
  is_date today = true -> year today < 9999 ->
  no_leap_day records = true -> birthdays_ready today records = true.
Proof.
  intros Ht Hy H. unfold no_leap_day, birthdays_ready in *.
  rewrite forallb_forall in *. intros r Hr. specialize (H r Hr).
  destruct (birthday r) as [b|]; [|reflexivity].
  destruct (strptime_dmY (value b)) as [|d] eqn:E; [discriminate|].
  apply occurrence_exists_plain; try assumption.
  eapply strptime_is_date, E.
Qed.

(** X16: the query returns a list, raising nothing, when today is a date
    before the year 9999 and every birthday set in the book reads as a
    date other than a February 29. *)
Theorem query_returns_without_leap_day (today : date) (book : AddressBook) :
  is_date today = true -> year today < 9999 ->
  no_leap_day (dict_values book) = true ->
  exists l, AddressBook_get_upcoming_birthdays today book = (inr l, book).
Proof.
  intros Ht Hy H.
  unfold AddressBook_get_upcoming_birthdays, bind, get.
  rewrite (upcoming_loop _ _ (no_leap_day_ready _ _ Ht Hy H)). eauto.
Qed.

Lemma query_returns_without_leap_day_witness :
  exists l,
    AddressBook_get_upcoming_birthdays (mkdate 2023 12 28) scenario_book
    = (inr l, scenario_book).
Proof.
  apply (query_returns_without_leap_day (mkdate 2023 12 28) scenario_book).
  - reflexivity.
  - cbn. lia.
  - reflexivity.
Defined.

Lemma ord_next_year (y m d : Z) :
  ymd_to_ord y m d + 365 <= ymd_to_ord (y + 1) m d <= ymd_to_ord y m d + 366.
Proof.
  unfold ymd_to_ord, days_before_month. rewrite days_before_year_succ.
  assert (L : is_leap y = true -> is_leap (y + 1) = false).
  { intros H. apply is_leap_spec in H as [H _].
    destruct (is_leap (y + 1)) eqn:E; [|reflexivity].
    apply is_leap_spec in E as [E _]. Z.div_mod_to_equations. lia. }
  destruct (is_leap y) eqn:Ly; [rewrite (L eq_refl)|];
    destruct (2 <? m); destruct (is_leap (y + 1)); cbn [andb]; lia.
Qed.

Lemma occurrence_bounds (today bd : date) :
  is_date today = true ->
  occurrence_exists today bd = true ->
  (year (occurrence today bd) = year today
   \/ year (occurrence today bd) = year today + 1)
  /\ 0 <= date_sub (occurrence today bd) today <= 365.
Proof.
  intros Ht He.
  pose proof (occurrence_not_before _ _ Ht He) as [_ Hlow].
  unfold occurrence_exists in He. apply andb_true_iff in He as [Hthis Ho].
  split.
  - unfold occurrence. destruct (date_lt _ today); cbn; auto.
  - split; [exact Hlow|].
    unfold date_sub in *. unfold occurrence in *.
    destruct (date_lt (this_year_occurrence today bd) today) eqn:L.
    + pose proof (toordinal_lt _ _ Hthis Ht L) as H.
      pose proof (ord_next_year (year today) (month bd) (day bd)) as Hn.
      unfold toordinal in *. cbn [this_year_occurrence next_year_occurrence
                                    year month day] in *. lia.
    + apply is_date_spec in Hthis as (_ & Hm & Hd).
      apply is_date_spec in Ht as (_ & Hmt & Hdt).
      cbn [this_year_occurrence year month day] in *.
      pose proof (days_in_year_bound (year today) (month bd) (day bd) Hm (proj2 Hd)).
      pose proof (days_before_month_nonneg (year today) (month today) Hmt).
      unfold toordinal, ymd_to_ord. cbn [this_year_occurrence year month day].
      destruct (is_leap (year today)); lia.
Qed.

(** What [birthday_occurrence] has done when it returns a date. *)
Lemma birthday_occurrence_inv (today : date) (b : Field) (occ : date) :
  birthday_occurrence today b = inr occ ->
  exists bd,
    strptime_dmY (value b) = inr bd
    /\ occurrence_exists today bd = true
    /\ occ = occurrence today bd.
Proof.
  unfold birthday_occurrence, date_replace_year.
  destruct (strptime_dmY (value b)) as [e|bd] eqn:Ep; cbn [ebind]; [discriminate|].
  destruct (date_new (year today) (month bd) (day bd)) as [e|d0] eqn:En;
    cbn [ebind]; [discriminate|].
  apply date_new_inv in En as [-> Hthis]. fold (this_year_occurrence today bd).
  intros H. exists bd. split; [reflexivity|].
  unfold occurrence_exists, occurrence, is_date.
  cbn [this_year_occurrence year month day]. rewrite Hthis. cbn [andb].
  fold (this_year_occurrence today bd).
  destruct (date_lt (this_year_occurrence today bd) today).
  - cbn [this_year_occurrence month day] in H.
    apply date_new_inv in H as [-> Hnext]. split; [exact Hnext | reflexivity].
  - inversion H; subst. split; [exact Hthis | reflexivity].
Qed.

(** X17: for a real date today, the date that lines 71 to 73 build for a
    birthday, whenever they build one, is a date of the calendar in
    today's year or the next, from 0 to 365 days after today; and they
    build one for every stored birthday whose occurrences exist. *)
Theorem occurrence_within_a_year (today : date) (b : Field) :
  is_date today = true ->
  (forall occ,
      birthday_occurrence today b = inr occ ->
      is_date occ = true
      /\ (year occ = year today \/ year occ = year today + 1)
      /\ date_lt occ today = false
      /\ 0 <= date_sub occ today <= 365)
  /\ (forall bd,
        strptime_dmY (value b) = inr bd ->
        occurrence_exists today bd = true ->
        birthday_occurrence today b = inr (occurrence today bd)).
Proof.
  intros Ht. split.
  - intros occ H.
    apply birthday_occurrence_inv in H as (bd & _ & He & ->).
    destruct (occurrence_bounds _ _ Ht He) as [Hy Hb].
    destruct (occurrence_not_before _ _ Ht He) as [Hlt _].
    assert (Ho : is_date (occurrence today bd) = true).
    { unfold occurrence_exists in He. now apply andb_true_iff in He as [_ Ho]. }
    split; [exact Ho|]. split; [exact Hy|]. split; [exact Hlt | exact Hb].
  - intros bd Hp He. apply birthday_occurrence_ready; assumption.
Qed.

Lemma occurrence_within_a_year_witness :
  0 <= date_sub (mkdate 2025 6 9) (mkdate 2024 6 10) <= 365.
Proof.
  apply (proj1 (occurrence_within_a_year (mkdate 2024 6 10)
                  (Field__init__ "09.06.1985") eq_refl)
           (mkdate 2025 6 9) eq_refl).
Defined.

Lemma date_new_interp (y m d : Z) (e : exn) :
  date_new y m d = inl e -> exists w, e = ValueError (Interpreter w).
Proof.
  unfold date_new.
  repeat (destruct (negb _); [intros H; inversion H; eauto|]).
  discriminate.
Qed.

Lemma py_int_interp (s : list ascii) (e : exn) :
  py_int s = inl e -> exists w, e = ValueError (Interpreter w).
Proof.
  unfold py_int. destruct (lstrip s); [intros H; inversion H; eauto|].
  destruct (digits_value 0 _); intros H; inversion H; eauto.
Qed.

Lemma strptime_interp (s : string) (e : exn) :
  strptime_dmY s = inl e -> exists w, e = ValueError (Interpreter w).
Proof.
  unfold strptime_dmY.
  destruct (format_regex_match _) as [[found rest]|]; [|intros H; inversion H; eauto].
  destruct rest; [|intros H; inversion H; eauto].
  destruct (py_int (group_d found)) eqn:Ed; cbn [ebind];
    [intros H; inversion H; subst; eapply py_int_interp, Ed|].
  destruct (py_int (group_m found)) eqn:Em; cbn [ebind];
    [intros H; inversion H; subst; eapply py_int_interp, Em|].
  destruct (py_int (group_Y found)) eqn:Ey; cbn [ebind];
    [intros H; inversion H; subst; eapply py_int_interp, Ey|].
  apply date_new_interp.
Qed.

Lemma birthday_occurrence_interp (today : date) (b : Field) (e : exn) :
  birthday_occurrence today b = inl e -> exists w, e = ValueError (Interpreter w).
Proof.
  unfold birthday_occurrence, date_replace_year.
  destruct (strptime_dmY (value b)) eqn:Ep; cbn [ebind];
    [intros H; inversion H; subst; eapply strptime_interp, Ep|].
  destruct (date_new (year today) (month d) (day d)) eqn:En; cbn [ebind];
    [intros H; inversion H; subst; eapply date_new_interp, En|].
  destruct (date_lt d0 today); [apply date_new_interp | discriminate].
Qed.

Lemma upcoming_body_interp (today : date) acc record (book : AddressBook) (e : exn) :
  outcome (upcoming_body today acc record book) = inl e ->
  exists w, e = ValueError (Interpreter w).
Proof.
  unfold upcoming_body. destruct (birthday record) as [b|]; [|discriminate].
  unfold bind. destruct (birthday_occurrence today b) eqn:Eo; cbn.
  - intros H; inversion H; subst. eapply birthday_occurrence_interp, Eo.
  - destruct (_ <=? _); discriminate.
Qed.

Lemma loop_interp (today : date) (l : list ContactRecord) :
  forall acc (book : AddressBook) e,
    outcome (for_each l (upcoming_body today) acc book) = inl e ->
    exists w, e = ValueError (Interpreter w).
Proof.
  induction l as [|x xs IH]; intros acc book e; cbn [for_each]; [discriminate|].
  unfold bind.
  destruct (upcoming_body today acc x book) as [[e'|acc'] book'] eqn:Eb.
  - cbn. intros H; inversion H; subst.
    apply (upcoming_body_interp today acc x book). now rewrite Eb.
  - apply IH.
Qed.

Lemma query_raises_on_leap_day (today : date) (book : AddressBook)
    (k : string) (r : ContactRecord) (b : Field) (y : Z) :
  In (k, r) book ->
  birthday r = Some b ->
  strptime_dmY (value b) = inr (mkdate y 2 29) ->
  is_leap (year today) = false
  \/ (date_lt (mkdate (year today) 2 29) today = true
      /\ is_leap (year today + 1) = false) ->
  exists w,
    AddressBook_get_upcoming_birthdays today book
    = (inl (ValueError (Interpreter w)), book).
Proof.
  intros Hin Hb Hp Hy.
  unfold AddressBook_get_upcoming_birthdays, bind, get.
  assert (Hr : exists w, outcome (for_each (dict_values book) (upcoming_body today)
                                    [] book) = inl (ValueError w)).
  { apply (loop_raises today r).
    - unfold dict_values. apply in_map_iff. exists (k, r). auto.
    - intros acc bk. unfold upcoming_body. rewrite Hb. unfold bind.
      destruct (leap_day_occurrence_error today b y Hp Hy) as [w ->].
      exists w. reflexivity. }
  destruct Hr as [w Hw].
  destruct (loop_interp today _ _ _ _ Hw) as [w' E].
  pose proof (for_each_frame (upcoming_body today) (dict_values book)
                (fun acc x s => upcoming_body_frame today acc x s) [] book) as Hf.
  destruct (for_each _ _ _ _) as [o s]. cbn in Hw, Hf. subst. rewrite E.
  exists w'. reflexivity.
Qed.

(** X18: with a birthday on February 29 in the book, and a year to build
    its occurrence in that is not a leap year, the handler [birthdays]
    names nobody: it answers with the text of the interpreter's error,
    and leaves the book as it was. *)
Theorem birthdays_leap_day_error (today : date) (book : AddressBook)
    (k : string) (r : ContactRecord) (b : Field) (y : Z) :
  In (k, r) book ->
  birthday r = Some b ->
  strptime_dmY (value b) = inr (mkdate y 2 29) ->
  is_leap (year today) = false
  \/ (date_lt (mkdate (year today) 2 29) today = true
      /\ is_leap (year today + 1) = false) ->
  exists w, birthdays today book = (inr (InterpreterText w), book).
Proof.
  intros Hin Hb Hp Hy.
  destruct (query_raises_on_leap_day today book k r b y Hin Hb Hp Hy) as [w E].
  exists w. unfold birthdays, input_error, birthdays_body, bind.
  rewrite E. reflexivity.
Qed.

Lemma birthdays_leap_day_error_witness :
  exists w, birthdays (mkdate 2023 6 10) leap_book
            = (inr (InterpreterText w), leap_book).
Proof.
  apply (birthdays_leap_day_error (mkdate 2023 6 10) leap_book "L"
           (mkRecord (Name "L") [] (Some (Field__init__ "29.02.2000")))
           (Field__init__ "29.02.2000") 2000).
  - right; left; reflexivity.
  - reflexivity.
  - reflexivity.
  - left; reflexivity.
Defined.

(** ** [parse_input] *)

Lemma append_assoc (a b c : string) : ((a ++ b) ++ c = a ++ (b ++ c))%string.
Proof. induction a as [|x a IH]; cbn; [reflexivity | now rewrite IH]. Qed.

Lemma split_from_blank (s : string) :
  str_all char_isspace s = true -> split_from s "" = [].
Proof.
  induction s as [|c s IH]; cbn; [reflexivity|].
  intros H. apply andb_true_iff in H as [Hc Hs]. rewrite Hc. apply IH, Hs.
Qed.

Lemma split_from_word (w s acc : string) :
  str_all (fun c => negb (char_isspace c)) w = true ->
  split_from (w ++ s) acc = split_from s (acc ++ w).
Proof.
  revert acc. induction w as [|c w IH]; intros acc H; cbn.
  - now rewrite append_empty_r.
  - cbn in H. apply andb_true_iff in H as [Hc Hw].
    apply negb_true_iff in Hc. rewrite Hc, (IH _ Hw), append_assoc. reflexivity.
Qed.

Lemma is_word_spec (w : string) :
  is_word w = true ->
  w <> "" /\ str_all (fun c => negb (char_isspace c)) w = true.
Proof.
  unfold is_word. intros H. apply andb_true_iff in H as [Hn Hs].
  apply negb_true_iff, String.eqb_neq in Hn. auto.
Qed.

Lemma split_concat (ws : list string) :
  forallb is_word ws = true -> split (String.concat " " ws) = ws.
Proof.
  unfold split. induction ws as [|w ws IH]; [reflexivity|].
  intros H. cbn [forallb] in H. apply andb_true_iff in H as [Hw Hws].
  apply is_word_spec in Hw as [Hne Hsp].
  cbn [String.concat]. destruct ws as [|w2 ws].
  - pose proof (split_from_word w "" "" Hsp) as E.
    rewrite append_empty_r in E. rewrite E. cbn.
    destruct w; [congruence | reflexivity].
  - rewrite (split_from_word _ _ _ Hsp). cbn [String.append].
    change (" " ++ String.concat " " (w2 :: ws))%string
      with (String " " (String.concat " " (w2 :: ws))).
    cbn [split_from]. change (char_isspace " ") with true. cbn iota.
    destruct w; [congruence|]. f_equal. apply IH, Hws.
Qed.

Lemma lstrip_word (w : string) :
  str_all (fun c => negb (char_isspace c)) w = true -> str_lstrip w = w.
Proof.
  destruct w as [|c w]; cbn; [reflexivity|].
  intros H. apply andb_true_iff in H as [Hc _].
  apply negb_true_iff in Hc. now rewrite Hc.
Qed.

Lemma rstrip_word (w : string) :
  str_all (fun c => negb (char_isspace c)) w = true -> str_rstrip w = w.
Proof.
  induction w as [|c w IH]; cbn; [reflexivity|].
  intros H. apply andb_true_iff in H as [Hc Hw].
  apply negb_true_iff in Hc. rewrite (IH Hw), Hc. destruct w; reflexivity.
Qed.

(** X19: [parse_input] reads back a command line written as words with
    one blank between them: the command is the first word in small
    letters, the arguments are the other words as they are, in order. *)
Theorem parse_input_of_words (cmd : string) (args : list string) :
  is_word cmd = true -> forallb is_word args = true ->
  parse_input (String.concat " " (cmd :: args)) = inl (lower cmd, args).
Proof.
  intros Hc Ha. unfold parse_input, parse_input_body.
  rewrite split_concat by (cbn [forallb]; now rewrite Hc, Ha).
  cbn [unpack_first_rest ebind fst snd input_error_pure].
  apply is_word_spec in Hc as [_ Hs].
  unfold strip. rewrite (lstrip_word _ Hs), (rstrip_word _ Hs). reflexivity.
Qed.

Lemma parse_input_of_words_witness :
  parse_input "ADD Bob 1234567890" = inl ("add", ["Bob"; "1234567890"]).
Proof.
  apply (parse_input_of_words "ADD" ["Bob"; "1234567890"]); reflexivity.
Defined.

Lemma split_from_words (s acc : string) :
  str_all (fun c => negb (char_isspace c)) acc = true ->
  Forall (fun w => is_word w = true) (split_from s acc).
Proof.
  revert acc. induction s as [|c s IH]; intros acc Ha; cbn.
  - destruct acc; [constructor|]. constructor; [|constructor].
    unfold is_word. now rewrite Ha.
  - destruct (char_isspace c) eqn:Ec.
    + destruct acc; [apply IH; reflexivity|].
      constructor; [unfold is_word; now rewrite Ha | apply IH; reflexivity].
    + apply IH. rewrite str_all_append, Ha. cbn. now rewrite Ec.
Qed.

(** X20: a line of white space only, or empty, gives no command:
    [parse_input] answers with the text of the unpacking error. Of any
    other line it returns the first word in small letters and the other
    words, none of them empty or with white space. *)
Theorem parse_input_blank_or_words (user_input : string) :
  (str_all char_isspace user_input = true ->
   parse_input user_input = inr (InterpreterText UnpackArity))
  /\ (forall cmd args,
        parse_input user_input = inl (cmd, args) ->
        Forall (fun w => is_word w = true) args
        /\ exists w, is_word w = true /\ cmd = lower w
                     /\ split user_input = w :: args).
Proof.
  unfold parse_input, parse_input_body, split. split.
  - intros H. rewrite (split_from_blank _ H). reflexivity.
  - intros cmd args.
    pose proof (split_from_words user_input "" eq_refl) as Hw.
    destruct (split_from user_input "") as [|w ws]; [discriminate|].
    cbn. intros H. inversion H; subst. inversion Hw as [|? ? Hw1 Hw2]; subst.
    split; [exact Hw2|]. exists w. repeat split; [exact Hw1|].
    apply is_word_spec in Hw1 as [_ Hs].
    unfold strip. now rewrite (lstrip_word _ Hs), (rstrip_word _ Hs).
Qed.

Lemma parse_input_blank_or_words_witness :
  parse_input "   " = inr (InterpreterText UnpackArity).
Proof.
  apply (proj1 (parse_input_blank_or_words "   ")). reflexivity.
Defined.

(** ** Dates written and read back *)

Lemma range_check (P : Z -> bool) (lo n : nat) :
  forallb P (map Z.of_nat (seq lo n)) = true ->
  forall d, Z.of_nat lo <= d < Z.of_nat (lo + n) -> P d = true.
Proof.
  intros H d Hd. rewrite forallb_forall in H. apply H.
  apply in_map_iff. exists (Z.to_nat d). split; [lia|].
  apply in_seq. lia.
Qed.

Lemma day_two_digits (d : Z) :
  1 <= d <= 31 ->
  day_text (list_ascii_of_string (two_digits d)) = true
  /\ number (list_ascii_of_string (two_digits d)) = d.
Proof.
  intros Hd.
  pose proof (range_check
    (fun d => day_text (list_ascii_of_string (two_digits d))
              && (number (list_ascii_of_string (two_digits d)) =? d))
    1 31 eq_refl d ltac:(lia)) as H.
  apply andb_true_iff in H as [H1 H2]. apply Z.eqb_eq in H2. auto.
Qed.

Lemma month_two_digits (m : Z) :
  1 <= m <= 12 ->
  month_text (list_ascii_of_string (two_digits m)) = true
  /\ number (list_ascii_of_string (two_digits m)) = m.
Proof.
  intros Hm.
  pose proof (range_check
    (fun m => month_text (list_ascii_of_string (two_digits m))
              && (number (list_ascii_of_string (two_digits m)) =? m))
    1 12 eq_refl m ltac:(lia)) as H.
  apply andb_true_iff in H as [H1 H2]. apply Z.eqb_eq in H2. auto.
Qed.

Lemma digit_char_decimal (q : Z) :
  0 <= q <= 9 ->
  char_isdecimal (digit_char q) = true
  /\ Z.of_N (code (digit_char q)) - 48 = q.
Proof.
  intros Hq.
  pose proof (range_check
    (fun q => char_isdecimal (digit_char q)
              && (Z.of_N (code (digit_char q)) - 48 =? q))
    0 10 eq_refl q ltac:(lia)) as H.
  apply andb_true_iff in H as [H1 H2]. apply Z.eqb_eq in H2. auto.
Qed.

Lemma year_four_digits (y : Z) :
  0 <= y <= 9999 ->
  year_text (list_ascii_of_string (four_digits y)) = true
  /\ number (list_ascii_of_string (four_digits y)) = y.
Proof.
  intros Hy. unfold four_digits, two_digits.
  cbn [list_ascii_of_string year_text number fold_left].
  destruct (digit_char_decimal (y / 1000)) as [A1 A2];
    [Z.div_mod_to_equations; lia|].
  destruct (digit_char_decimal (y / 100 mod 10)) as [B1 B2];
    [Z.div_mod_to_equations; lia|].
  destruct (digit_char_decimal (y mod 100 / 10)) as [C1 C2];
    [Z.div_mod_to_equations; lia|].
  destruct (digit_char_decimal (y mod 100 mod 10)) as [D1 D2];
    [Z.div_mod_to_equations; lia|].
  rewrite A1, B1, C1, D1, A2, B2, C2, D2. split; [reflexivity|].
  Z.div_mod_to_equations. lia.
Qed.

(** X21: a date written by [strftime] is read back by [strptime] as the
    same date, and is a text that [Birthday] accepts: what the query
    prints can be given back as a birthday. The year is one that
    [strftime] writes with four digits. *)
Theorem strftime_strptime_round_trip (d : date) :
  is_date d = true -> 1000 <= year d ->
  strptime_dmY (strftime_dmY d) = inr d
  /\ Birthday (strftime_dmY d) = inr (Field__init__ (strftime_dmY d)).
Proof.
  intros Hd _.
  assert (H : strptime_dmY (strftime_dmY d) = inr d).
  { pose proof (is_date_spec _ Hd) as (Hy & Hm & Hday).
    pose proof (days_in_month_le (year d) (month d)) as Hle.
    destruct (day_two_digits (day d)) as [D1 D2]; [lia|].
    destruct (month_two_digits (month d) Hm) as [M1 M2].
    destruct (year_four_digits (year d)) as [Y1 Y2]; [lia|].
    apply strptime_dmY_iff.
    exists (list_ascii_of_string (two_digits (day d))),
           (list_ascii_of_string (two_digits (month d))),
           (list_ascii_of_string (four_digits (year d))).
    rewrite D1, D2, M1, M2, Y1, Y2.
    split; [|split; [reflexivity|split; [reflexivity|split; [reflexivity|]]]].
    - unfold strftime_dmY. rewrite !list_ascii_app. reflexivity.
    - split; [exact Hd | destruct d; reflexivity]. }
  split; [exact H|]. apply Birthday_iff. eauto.
Qed.

Lemma strftime_strptime_round_trip_witness :
  strptime_dmY (strftime_dmY (mkdate 2024 2 29)) = inr (mkdate 2024 2 29).
Proof.
  apply (proj1 (strftime_strptime_round_trip (mkdate 2024 2 29) eq_refl
                  ltac:(cbn; lia))).
Defined.
